(** * burn: a DOOM-like fire effect for a canvas

    A shallow embedding of [src/burn.js] (the TypeScript twin of the same
    module has the same bodies): the [Renderer] class with its heat grid,
    the palette rasteriser, and the controller closure built by [burn].

    Modelling conventions.
    - A JavaScript number that holds a grid index, an intensity or a colour
      channel is a [Z]; [scale], [interval] and the results of
      [Math.random()] are exact rationals ([Q]).
    - [canvas.width / scale] is the exact quotient and [scale] is meant
      positive; a scale of 0, for which JavaScript computes with [Infinity]
      or [NaN], is outside the model.
    - [Math.random()] is an oracle: the [n]-th call returns [draws n]; the
      number of calls made so far is part of the state.
    - A [Uint8Array] is a [list Z] of bytes.  An indexed store outside the
      array is dropped, an indexed load outside the array is [undefined]
      (here [None], which arithmetic turns into [NaN] and a byte store into
      [0]).
    - A method that can throw runs in the monad [M St A := St -> Result A * St]:
      the mutations made before the [throw] stay in the state. *)

From Stdlib Require Import ZArith QArith Qround Lia Lqa String.
From stdpp Require Import base list.

Local Open Scope Z_scope.

(** ** Loops *)

(** [for (let i = lo; i < hi; i++) body(i)], the bound being loop-invariant. *)
Fixpoint for_loop {St : Type} (n : nat) (i : Z) (body : Z -> St -> St) (s : St) : St :=
  match n with
  | O => s
  | S n' => for_loop n' (i + 1) body (body i s)
  end.

Definition for_range {St : Type} (lo hi : Z) (body : Z -> St -> St) (s : St) : St :=
  for_loop (Z.to_nat (hi - lo)) lo body s.

(** ** Exceptions and the state monad *)

Inductive Error : Type :=
| TypeError (msg : string)
| IndexSizeError.

Inductive Result (A : Type) : Type :=
| Ok (a : A)
| Throw (e : Error).
Arguments Ok {A} a.
Arguments Throw {A} e.

Definition M (St A : Type) : Type := St -> Result A * St.

Definition ret {St A : Type} (a : A) : M St A := fun s => (Ok a, s).

Definition throw {St A : Type} (e : Error) : M St A := fun s => (Throw e, s).

Definition bind {St A B : Type} (m : M St A) (k : A -> M St B) : M St B :=
  fun s =>
    match m s with
    | (Ok a, s') => k a s'
    | (Throw e, s') => (Throw e, s')
    end.

Definition gets {St A : Type} (f : St -> A) : M St A := fun s => (Ok (f s), s).

Definition modify {St : Type} (f : St -> St) : M St unit := fun s => (Ok tt, f s).

Declare Scope js_scope.
Delimit Scope js_scope with js.
Notation "x <- m ;; k" := (bind m (fun x => k))
  (at level 100, m at next level, right associativity) : js_scope.
Notation "m ;; k" := (bind m (fun _ => k))
  (at level 100, right associativity) : js_scope.

(** ** Typed arrays *)

(** [a[i]] on an array or a typed array: [undefined] outside
    [0 .. length-1]. *)
Definition array_get {A : Type} (a : list A) (i : Z) : option A :=
  if i <? 0 then None else a !! Z.to_nat i.

Definition typed_get (a : list Z) (i : Z) : option Z := array_get a i.

(** [a[i] = v] on a typed array, [v] already converted to an element:
    an index outside [0 .. length-1] is ignored, the array never grows. *)
Definition typed_set (a : list Z) (i : Z) (v : Z) : list Z :=
  if i <? 0 then a else <[Z.to_nat i := v]> a.

(** Conversion of a number to a [Uint8Array] element; [None] is [NaN]. *)
Definition ToUint8 (v : option Z) : Z :=
  match v with
  | Some n => n mod 256
  | None => 0
  end.

(** Conversion of a number to a [Uint8ClampedArray] element. *)
Definition ToUint8Clamp (v : Z) : Z := Z.max 0 (Z.min 255 v).

(** [new Uint8Array(n)]: [n] zero bytes. *)
Definition Uint8Array_new (n : Z) : list Z := replicate (Z.to_nat n) 0.

(** ** [Math.random] *)

Record RNG : Type := {
  draws : nat -> Q;
  calls : nat;
}.

Definition Math_random (g : RNG) : Q * RNG :=
  (draws g (calls g), {| draws := draws g; calls := S (calls g) |}).

(** ** The canvas *)

Record ImageData : Type := {
  im_width : Z;
  im_height : Z;
  data : list Z;
}.

(** The target surface: its pixel size (an [unsigned long] each) and the
    frames blitted onto it by [drawImage], the newest first. *)
Record HTMLCanvasElement : Type := {
  canvas_width : N;
  canvas_height : N;
  drawn : list ImageData;
}.

(** [ctx.createImageData(sw, sh)]: transparent black; the DOM throws an
    [IndexSizeError] when either size is zero. *)
Definition createImageData (sw sh : Z) : Result ImageData :=
  if (sw =? 0) || (sh =? 0) then Throw IndexSizeError
  else Ok {| im_width := sw; im_height := sh;
             data := replicate (Z.to_nat (4 * Z.abs sw * Z.abs sh)) 0 |}.

(** ** Palettes *)

(** [type Color = [r: number, g: number, b: number, a?: number]] *)
Record Color : Type := {
  red : Z;
  green : Z;
  blue : Z;
  alpha : option Z;
}.

Definition ColorPallete : Type := list Color.

Definition rgb (r g b : Z) : Color :=
  {| red := r; green := g; blue := b; alpha := None |}.

Definition DEFAULT_PALLETE : ColorPallete := [
  rgb 0x07 0x07 0x07;
  rgb 0x1F 0x07 0x07;
  rgb 0x2F 0x0F 0x07;
  rgb 0x47 0x0F 0x07;
  rgb 0x57 0x17 0x07;
  rgb 0x67 0x1F 0x07;
  rgb 0x77 0x1F 0x07;
  rgb 0x8F 0x27 0x07;
  rgb 0x9F 0x2F 0x07;
  rgb 0xAF 0x3F 0x07;
  rgb 0xBF 0x47 0x07;
  rgb 0xC7 0x47 0x07;
  rgb 0xDF 0x4F 0x07;
  rgb 0xDF 0x57 0x07;
  rgb 0xDF 0x57 0x07;
  rgb 0xD7 0x5F 0x07;
  rgb 0xD7 0x5F 0x07;
  rgb 0xD7 0x67 0x0F;
  rgb 0xCF 0x6F 0x0F;
  rgb 0xCF 0x77 0x0F;
  rgb 0xCF 0x7F 0x0F;
  rgb 0xCF 0x87 0x17;
  rgb 0xC7 0x87 0x17;
  rgb 0xC7 0x8F 0x17;
  rgb 0xC7 0x97 0x1F;
  rgb 0xBF 0x9F 0x1F;
  rgb 0xBF 0x9F 0x1F;
  rgb 0xBF 0xA7 0x27;
  rgb 0xBF 0xA7 0x27;
  rgb 0xBF 0xAF 0x2F;
  rgb 0xB7 0xAF 0x2F;
  rgb 0xB7 0xB7 0x2F;
  rgb 0xB7 0xB7 0x37;
  rgb 0xCF 0xCF 0x6F;
  rgb 0xDF 0xDF 0x9F;
  rgb 0xEF 0xEF 0xC7;
  rgb 0xFF 0xFF 0xFF
].

(** ** The [Renderer] class *)

(** The private fields [#scale], [#pallete], [#canvas] and [#pixels]; the
    two drawing contexts only carry the frames, which [drawn] records. *)
Record Renderer : Type := {
  r_scale : Q;
  r_pallete : ColorPallete;
  r_canvas : HTMLCanvasElement;
  r_pixels : list Z;
}.

Definition with_pixels (r : Renderer) (px : list Z) : Renderer :=
  {| r_scale := r_scale r; r_pallete := r_pallete r;
     r_canvas := r_canvas r; r_pixels := px |}.

Definition with_pallete (r : Renderer) (p : ColorPallete) : Renderer :=
  {| r_scale := r_scale r; r_pallete := p;
     r_canvas := r_canvas r; r_pixels := r_pixels r |}.

Definition drawImage (r : Renderer) (img : ImageData) : Renderer :=
  {| r_scale := r_scale r; r_pallete := r_pallete r;
     r_canvas := {| canvas_width := canvas_width (r_canvas r);
                    canvas_height := canvas_height (r_canvas r);
                    drawn := img :: drawn (r_canvas r) |};
     r_pixels := r_pixels r |}.

(** [get #width()]: [Math.floor(this.#canvas.width / this.#scale)] *)
Definition width (r : Renderer) : Z :=
  Qfloor (inject_Z (Z.of_N (canvas_width (r_canvas r))) / r_scale r).

(** [get #height()]: [Math.floor(this.#canvas.height / this.#scale)] *)
Definition height (r : Renderer) : Z :=
  Qfloor (inject_Z (Z.of_N (canvas_height (r_canvas r))) / r_scale r).

(** [set pallete(update)] *)
Definition set_pallete (update : ColorPallete) : M Renderer unit :=
  fun r =>
    if negb (Z.of_nat (length update) =? 37)
    then (Throw (TypeError "Color pallette must be 37 elements."), r)
    else (Ok tt, with_pallete r update).

(** [Math.floor(Math.random() * 3)] *)
Definition decay_of (u : Q) : Z := Qfloor (u * 3).

(** [Math.random() > 0.5 ? 1 : -1] *)
Definition direction_of (u : Q) : Z :=
  if Qlt_le_dec (1 # 2) u then 1 else -1.

(** [Math.max(this.#pixels[from] - decay, 0)]; [None] is [NaN]. *)
Definition decayed (src : option Z) (decay : Z) : option Z :=
  match src with
  | Some v => Some (Z.max (v - decay) 0)
  | None => None
  end.

(** [#spread(from)] *)
Definition spread (from : Z) (s : Renderer * RNG) : Renderer * RNG :=
  let (r, g) := s in
  if from <? width r then s
  else
    let (u1, g1) := Math_random g in
    let decay := decay_of u1 in
    let (u2, g2) := Math_random g1 in
    let to := from - width r + direction_of u2 in
    (with_pixels r
       (typed_set (r_pixels r) to
          (ToUint8 (decayed (typed_get (r_pixels r) from) decay))),
     g2).

(** [update()] *)
Definition update (s : Renderer * RNG) : Renderer * RNG :=
  let W := width (fst s) in
  let H := height (fst s) in
  for_range 0 W (fun x =>
    for_range 1 H (fun y =>
      spread (y * W + x))) s.

(** The body of the loop of [render()] over [this.#pixels], the cell [i]
    being the head of [px]: destructuring [this.#pallete[intensity]] throws
    when the palette has no such entry. *)
Fixpoint render_pixels (pal : ColorPallete) (px : list Z) (i : Z)
    (d : list Z) : Result (list Z) :=
  match px with
  | [] => Ok d
  | intensity :: rest =>
      match array_get pal intensity with
      | None => Throw (TypeError "undefined is not iterable")
      | Some c =>
          let offset := i * 4 in
          let d' :=
            if intensity =? 0 then
              typed_set d (offset + 3) (ToUint8Clamp 0)
            else
              let d1 := typed_set d offset (ToUint8Clamp (red c)) in
              let d2 := typed_set d1 (offset + 1) (ToUint8Clamp (green c)) in
              let d3 := typed_set d2 (offset + 2) (ToUint8Clamp (blue c)) in
              typed_set d3 (offset + 3) (ToUint8Clamp 255)
          in
          render_pixels pal rest (i + 1) d'
      end
  end.

(** [render()]: the frame is built off screen at the grid's size and then
    blitted onto the canvas (the stretch by [scale] and the anchoring at the
    bottom edge are left to [drawImage]). *)
Definition render : M Renderer unit :=
  fun r =>
    match createImageData (width r) (height r) with
    | Throw e => (Throw e, r)
    | Ok imageData =>
        match render_pixels (r_pallete r) (r_pixels r) 0 (data imageData) with
        | Throw e => (Throw e, r)
        | Ok d =>
            (Ok tt,
             drawImage r {| im_width := im_width imageData;
                            im_height := im_height imageData;
                            data := d |})
        end
    end.

(** [reset()] *)
Definition reset : M Renderer unit :=
  fun r =>
    let W := width r in
    let H := height r in
    let cleared := Uint8Array_new (W * H) in
    let seeded :=
      for_range 0 W (fun x px =>
        typed_set px ((H - 1) * W + x) (ToUint8 (Some 36))) cleared in
    render (with_pixels r seeded).

(** [new Renderer(canvas, { scale, pallete })]: the palette is stored as it
    is given; no object exists when [reset()] throws. *)
Definition Renderer_new (canvas : HTMLCanvasElement) (scale : Q)
    (pallete : ColorPallete) : Result Renderer :=
  let this :=
    {| r_scale := scale; r_pallete := pallete; r_canvas := canvas;
       r_pixels := [] |} in
  let this := with_pixels this (Uint8Array_new (width this * height this)) in
  match reset this with
  | (Ok _, this') => Ok this'
  | (Throw e, _) => Throw e
  end.

(** ** The controller closure of [burn] *)

(** [interface BurnOptions] *)
Record BurnOptions : Type := {
  o_scale : option Q;
  o_interval : option Q;
  o_height : option Z;
  o_pallete : option ColorPallete;
}.

(** The timers of the page: the pending [setTimeout] handles with their
    delays, and the next handle to hand out. *)
Record Timers : Type := {
  pending : list (Z * Q);
  next_handle : Z;
}.

(** The variables [interval], [pallete], [id] and [renderer] captured by
    the closures of [burn], with the page's [Math.random] and timers. *)
Record Burn : Type := {
  interval : Q;
  pallete : ColorPallete;
  id : option Z;
  renderer : Renderer;
  random : RNG;
  timers : Timers;
}.

Definition with_interval (b : Burn) (t : Q) : Burn :=
  {| interval := t; pallete := pallete b; id := id b;
     renderer := renderer b; random := random b; timers := timers b |}.

Definition with_closure_pallete (b : Burn) (p : ColorPallete) : Burn :=
  {| interval := interval b; pallete := p; id := id b;
     renderer := renderer b; random := random b; timers := timers b |}.

Definition with_id (b : Burn) (i : option Z) : Burn :=
  {| interval := interval b; pallete := pallete b; id := i;
     renderer := renderer b; random := random b; timers := timers b |}.

Definition with_renderer (b : Burn) (r : Renderer) (g : RNG) : Burn :=
  {| interval := interval b; pallete := pallete b; id := id b;
     renderer := r; random := g; timers := timers b |}.

Definition with_timers (b : Burn) (t : Timers) : Burn :=
  {| interval := interval b; pallete := pallete b; id := id b;
     renderer := renderer b; random := random b; timers := t |}.

(** A method of [renderer] called from the closure. *)
Definition on_renderer {A : Type} (m : M Renderer A) : M Burn A :=
  fun b =>
    let (res, r') := m (renderer b) in
    (res, with_renderer b r' (random b)).

(** [renderer.update()] *)
Definition renderer_update : M Burn unit :=
  fun b =>
    let (r', g') := update (renderer b, random b) in
    (Ok tt, with_renderer b r' g').

(** [setTimeout(animate, delay)] *)
Definition setTimeout (delay : Q) : M Burn Z :=
  fun b =>
    let h := next_handle (timers b) in
    (Ok h,
     with_timers b {| pending := (h, delay) :: pending (timers b);
                      next_handle := h + 1 |}).

(** [clearTimeout(h)] *)
Definition clearTimeout (h : Z) : M Burn unit :=
  modify (fun b =>
    with_timers b
      {| pending := filter (fun e => negb (fst e =? h)) (pending (timers b));
         next_handle := next_handle (timers b) |}).

(** [function animate()] *)
Definition animate : M Burn unit :=
  (p <- gets pallete ;;
   on_renderer (set_pallete p) ;;
   renderer_update ;;
   on_renderer render ;;
   t <- gets interval ;;
   h <- setTimeout t ;;
   modify (fun b => with_id b (Some h)))%js.

Module controller.

Definition start : M Burn unit :=
  fun b =>
    match id b with
    | Some _ => (Ok tt, b)
    | None => animate b
    end.

Definition stop : M Burn unit :=
  fun b =>
    match id b with
    | None => (Ok tt, b)
    | Some h =>
        (clearTimeout h ;; modify (fun b => with_id b None))%js b
    end.

Definition reset : M Burn unit := on_renderer reset.

Definition get_pallete : M Burn ColorPallete := gets pallete.

Definition set_pallete (update : ColorPallete) : M Burn unit :=
  modify (fun b => with_closure_pallete b update).

Definition get_interval : M Burn Q := gets interval.

Definition set_interval (update : Q) : M Burn unit :=
  modify (fun b => with_interval b update).

End controller.

(** The page's timer [h] expires: its callback [animate] runs. *)
Definition timeout_fires (h : Z) : M Burn unit :=
  fun b =>
    if existsb (fun e => fst e =? h) (pending (timers b))
    then (clearTimeout h ;; animate)%js b
    else (Ok tt, b).

(** [export default function burn(canvas, options = {})]: the closure
    state of the controller it returns; nothing is returned on a throw. *)
Definition burn (canvas : HTMLCanvasElement) (options : BurnOptions)
    (g : RNG) (t : Timers) : Result Burn :=
  let scale := default (7 # 2)%Q (o_scale options) in
  let interval := default (30 # 1)%Q (o_interval options) in
  let pallete := default DEFAULT_PALLETE (o_pallete options) in
  match Renderer_new canvas scale pallete with
  | Throw e => Throw e
  | Ok renderer =>
      let b := {| interval := interval; pallete := pallete; id := None;
                  renderer := renderer; random := g; timers := t |} in
      match controller.start b with
      | (Ok _, b') => Ok b'
      | (Throw e, _) => Throw e
      end
  end.

(** The two states of the controller. *)
Definition Stopped (b : Burn) : Prop := id b = None.
Definition Running (b : Burn) : Prop := id b <> None.

(** ** Well-formedness *)

(** Every element of a [Uint8Array] is a byte. *)
Definition bytes (px : list Z) : Prop := Forall (fun v => 0 <= v < 256) px.

(** [Math.random()] returns a number in [0, 1). *)
Definition rng_ok (g : RNG) : Prop :=
  forall n, (0 <= draws g n)%Q /\ (draws g n < 1)%Q.

(** The generator after [n] more calls. *)
Definition advance (n : nat) (g : RNG) : RNG :=
  {| draws := draws g; calls := (n + calls g)%nat |}.

(** The cells on which [update()] calls [#spread], in the order of the
    calls: column by column, and in each column the rows [1 .. H-1]. *)
Definition cells_visited (W H : Z) : list Z :=
  flat_map (fun x => map (fun y => y * W + x) (seqZ 1 (H - 1))) (seqZ 0 W).

(** Every intensity indexes the 37-entry palette. *)
Definition intensities (px : list Z) : Prop := Forall (fun v => 0 <= v <= 36) px.

(** The renderers that [reset()] followed by any number of [update()]
    calls can produce. *)
Inductive reachable : Renderer -> Prop :=
| reachable_reset (r : Renderer) :
    (0 < r_scale r)%Q -> reachable (snd (reset r))
| reachable_update (r : Renderer) (g : RNG) :
    reachable r -> rng_ok g -> reachable (fst (update (r, g))).

(** A palette entry with 8-bit channels. *)
Definition color8 (c : Color) : Prop :=
  0 <= red c <= 255 /\ 0 <= green c <= 255 /\ 0 <= blue c <= 255.

(** The four bytes that [render()] leaves at [offset] for a cell holding
    [intensity], over the frame [d] that it found there. *)
Definition paint (pal : ColorPallete) (intensity offset : Z) (d : list Z) : list Z :=
  match array_get pal intensity with
  | None => d
  | Some c =>
      if intensity =? 0 then typed_set d (offset + 3) (ToUint8Clamp 0)
      else
        typed_set
          (typed_set
             (typed_set (typed_set d offset (ToUint8Clamp (red c)))
                (offset + 1) (ToUint8Clamp (green c)))
             (offset + 2) (ToUint8Clamp (blue c)))
          (offset + 3) (ToUint8Clamp 255)
  end.

(** The cells from [B] on are those of [r0], on a grid as wide as [r0]'s. *)
Definition keeps (B : Z) (r0 : Renderer) (s : Renderer * RNG) : Prop :=
  width (fst s) = width r0 /\
  forall i, B <= i -> typed_get (r_pixels (fst s)) i = typed_get (r_pixels r0) i.

(** ** A 4x4 surface at scale 1 *)

Definition canvas4 : HTMLCanvasElement :=
  {| canvas_width := 4; canvas_height := 4; drawn := [] |}.

(** The renderer of [canvas4] before its first [reset()]. *)
Definition fresh4 : Renderer :=
  {| r_scale := 1; r_pallete := DEFAULT_PALLETE; r_canvas := canvas4;
     r_pixels := Uint8Array_new 16 |}.

Definition grid4 : Renderer := snd (reset fresh4).

(** An oracle whose every draw is [u]. *)
Definition steady (u : Q) : RNG := {| draws := fun _ => u; calls := 0 |}.


(** ** A controller on the 4x4 surface *)

Definition no_timers : Timers := {| pending := []; next_handle := 1 |}.

(** [{ scale: 1 }] *)
Definition options4 : BurnOptions :=
  {| o_scale := Some 1%Q; o_interval := None; o_height := None;
     o_pallete := None |}.

(** The closure of [burn(canvas4, { scale: 1 })] when the renderer has been
    constructed and [controller.start()] has not been called yet. *)
Definition closure4 : Burn :=
  {| interval := (30 # 1)%Q; pallete := DEFAULT_PALLETE; id := None;
     renderer := grid4; random := steady (3 # 4); timers := no_timers |}.

(** Palettes of 36 and of 38 entries. *)
Definition short_pallete : ColorPallete := take 36 DEFAULT_PALLETE.
Definition long_pallete : ColorPallete := DEFAULT_PALLETE ++ [rgb 0 0 0].

(** The controller's palette setter as the specification words it: a
    palette whose length is not 37 raises an error at the assignment. *)
Definition controller_setter_validates : Prop :=
  forall (update : ColorPallete) (b : Burn),
    length update <> 37%nat ->
    exists e, fst (controller.set_pallete update b) = Throw e.

(** The initial state as the specification words it: the controller that
    [burn()] returns is stopped. *)
Definition returned_stopped : Prop :=
  forall canvas options g t b,
    burn canvas options g t = Ok b -> Stopped b.

(** The closure of [burn] between the construction of the renderer [r] and
    the call of [controller.start()]. *)
Definition closure_of (options : BurnOptions) (r : Renderer) (g : RNG)
    (t : Timers) : Burn :=
  {| interval := default (30 # 1)%Q (o_interval options);
     pallete := default DEFAULT_PALLETE (o_pallete options);
     id := None; renderer := r; random := g; timers := t |}.

(** The closure after a tick that ran to its end: the grid updated and
    blitted as [img], and the next tick scheduled. *)
Definition ticked (b : Burn) (r : Renderer) (g : RNG) (img : ImageData) : Burn :=
  {| interval := interval b; pallete := pallete b;
     id := Some (next_handle (timers b));
     renderer := drawImage r img; random := g;
     timers := {| pending := (next_handle (timers b), interval b)
                               :: pending (timers b);
                  next_handle := next_handle (timers b) + 1 |} |}.

(** ** Further vocabulary *)

(** The browser hands out timer handles in increasing order: every pending
    handle is below the next one. *)
Definition fresh_handles (t : Timers) : Prop :=
  Forall (fun e => fst e < next_handle t) (pending t).

(** [burn(canvas)]: no option given. *)
Definition no_options : BurnOptions :=
  {| o_scale := None; o_interval := None; o_height := None;
     o_pallete := None |}.

(** The grid holds no heat above [top]. *)
Definition at_most (top : Z) (px : list Z) : Prop :=
  Forall (fun v => 0 <= v <= top) px.

(** The controller that [burn(canvas4, { scale: 1 })] returns. *)
Definition running4 : Burn :=
  match burn canvas4 options4 (steady (3 # 4)) no_timers with
  | Ok b => b
  | Throw _ => closure4
  end.

(** ** Loops, arrays and draws: basic facts *)

Section Loops.
Context {St : Type}.
Implicit Types (body : Z -> St -> St) (s : St).

Lemma for_loop_foldl body n i s :
  for_loop n i body s = foldl (fun s i => body i s) s (seqZ i (Z.of_nat n)).
Proof.
  revert i s. induction n as [|n IH]; intros i s.
  - reflexivity.
  - rewrite seqZ_cons by lia. cbn [for_loop foldl].
    rewrite IH. do 2 f_equal; lia.
Qed.

Lemma for_range_foldl body lo hi s :
  for_range lo hi body s = foldl (fun s i => body i s) s (seqZ lo (hi - lo)).
Proof.
  unfold for_range. rewrite for_loop_foldl.
  destruct (Z_le_gt_dec (hi - lo) 0) as [Hle|Hgt].
  - replace (Z.to_nat (hi - lo)) with 0%nat by lia.
    now rewrite (seqZ_nil lo (hi - lo)) by lia.
  - now rewrite Z2Nat.id by lia.
Qed.

Lemma for_range_empty body lo hi s : hi <= lo -> for_range lo hi body s = s.
Proof.
  intros Hle. unfold for_range.
  now replace (Z.to_nat (hi - lo)) with 0%nat by lia.
Qed.

(** The last iteration of a loop that runs at least once. *)
Lemma for_range_last body lo hi s :
  lo < hi ->
  for_range lo hi body s = body (hi - 1) (for_range lo (hi - 1) body s).
Proof.
  intros Hlt. rewrite !for_range_foldl.
  replace (hi - lo) with (Z.of_nat (S (Z.to_nat (hi - 1 - lo)))) by lia.
  rewrite seqZ_S, foldl_snoc.
  replace (Z.of_nat (Z.to_nat (hi - 1 - lo))) with (hi - 1 - lo) by lia.
  f_equal. lia.
Qed.

Lemma for_loop_inv (P : St -> Prop) body lo hi n i s :
  lo <= i -> i + Z.of_nat n <= hi ->
  (forall j s', lo <= j < hi -> P s' -> P (body j s')) ->
  P s -> P (for_loop n i body s).
Proof.
  intros Hlo Hhi Hstep. revert i s Hlo Hhi.
  induction n as [|n IH]; intros i s Hlo Hhi Hs; [exact Hs|].
  cbn [for_loop]. apply IH; [lia | lia |].
  apply Hstep; [lia | exact Hs].
Qed.

(** The invariant rule of a [for] loop. *)
Lemma for_range_inv (P : St -> Prop) body lo hi s :
  P s ->
  (forall i s', lo <= i < hi -> P s' -> P (body i s')) ->
  P (for_range lo hi body s).
Proof.
  intros Hs Hstep.
  destruct (Z_le_gt_dec hi lo) as [Hle|Hgt].
  - now rewrite for_range_empty.
  - unfold for_range. apply for_loop_inv with (lo := lo) (hi := hi);
      [lia | lia | exact Hstep | exact Hs].
Qed.
End Loops.

Lemma array_get_Some {A : Type} (a : list A) (i : Z) (v : A) :
  array_get a i = Some v <-> 0 <= i /\ a !! Z.to_nat i = Some v.
Proof.
  unfold array_get. destruct (Z.ltb_spec i 0); split.
  - discriminate.
  - intros [Hi _]. lia.
  - intros Hv. split; [lia | exact Hv].
  - intros [_ Hv]. exact Hv.
Qed.

Lemma array_get_lt {A : Type} (a : list A) (i : Z) (v : A) :
  array_get a i = Some v -> 0 <= i < Z.of_nat (length a).
Proof.
  intros [Hi Hv]%array_get_Some. apply lookup_lt_Some in Hv. lia.
Qed.

Lemma array_get_is_Some {A : Type} (a : list A) (i : Z) :
  0 <= i < Z.of_nat (length a) -> exists v, array_get a i = Some v.
Proof.
  intros Hi. destruct (lookup_lt_is_Some_2 a (Z.to_nat i)) as [v Hv]; [lia|].
  exists v. apply array_get_Some. split; [lia | exact Hv].
Qed.

Lemma typed_set_length (a : list Z) (i v : Z) :
  length (typed_set a i v) = length a.
Proof.
  unfold typed_set. destruct (i <? 0); [reflexivity | apply length_insert].
Qed.

Lemma typed_get_set_eq (a : list Z) (i v : Z) :
  0 <= i < Z.of_nat (length a) -> typed_get (typed_set a i v) i = Some v.
Proof.
  intros Hi. unfold typed_get, array_get, typed_set.
  destruct (Z.ltb_spec i 0); [lia|].
  apply list_lookup_insert_eq. lia.
Qed.

Lemma typed_get_set_ne (a : list Z) (i j v : Z) :
  i <> j -> typed_get (typed_set a i v) j = typed_get a j.
Proof.
  intros Hij. unfold typed_get, array_get, typed_set.
  destruct (Z.ltb_spec j 0); [reflexivity|].
  destruct (Z.ltb_spec i 0); [reflexivity|].
  apply list_lookup_insert_ne. lia.
Qed.

(** A store outside the array is dropped. *)
Lemma typed_set_out (a : list Z) (i v : Z) :
  i < 0 \/ Z.of_nat (length a) <= i -> typed_set a i v = a.
Proof.
  intros Hi. unfold typed_set.
  destruct (Z.ltb_spec i 0); [reflexivity|].
  apply list_insert_ge. lia.
Qed.

Lemma Forall_typed_set (P : Z -> Prop) (a : list Z) (i v : Z) :
  Forall P a -> P v -> Forall P (typed_set a i v).
Proof.
  intros Ha Hv. unfold typed_set.
  destruct (i <? 0); [exact Ha | now apply Forall_insert].
Qed.

Lemma Forall_typed_get (P : Z -> Prop) (a : list Z) (i v : Z) :
  Forall P a -> typed_get a i = Some v -> P v.
Proof.
  intros Ha [_ Hv]%array_get_Some.
  exact (proj1 (Forall_lookup P a) Ha _ _ Hv).
Qed.

(** The floor of a rational, by its two bounds. *)
Lemma Qfloor_eq (q : Q) (k : Z) :
  Qfloor q = k <-> (inject_Z k <= q)%Q /\ (q < inject_Z (k + 1))%Q.
Proof.
  split.
  - intros <-. split; [apply Qfloor_le | apply Qlt_floor].
  - intros [Hlo Hhi].
    assert (H1 : k <= Qfloor q).
    { rewrite <- (Qfloor_Z k). now apply Qfloor_resp_le. }
    assert (H2 : Qfloor q < k + 1).
    { rewrite Zlt_Qlt. eapply Qle_lt_trans; [apply Qfloor_le | exact Hhi]. }
    lia.
Qed.

(** [decay] is [k] exactly on the draws of [k/3, (k+1)/3): the three values
    [0], [1] and [2] each take a third of [0, 1). *)
Lemma decay_of_eq (u : Q) (k : Z) :
  decay_of u = k <->
  (inject_Z k / 3 <= u)%Q /\ (u < inject_Z (k + 1) / 3)%Q.
Proof.
  unfold decay_of. rewrite Qfloor_eq.
  unfold Qdiv. change (/ 3)%Q with (1 # 3)%Q.
  split; intros [Hlo Hhi]; split; lra.
Qed.

Lemma decay_of_range (u : Q) :
  (0 <= u)%Q -> (u < 1)%Q -> 0 <= decay_of u <= 2.
Proof.
  intros H0 H1.
  destruct (proj1 (Qfloor_eq (u * 3) (decay_of u)) eq_refl) as [Hlo Hhi].
  assert (Ha : (inject_Z (decay_of u) < inject_Z 3)%Q).
  { change (inject_Z 3) with 3%Q. lra. }
  assert (Hb : (inject_Z (-1) < inject_Z (decay_of u))%Q).
  { rewrite inject_Z_plus in Hhi.
    change (inject_Z 1) with 1%Q in Hhi. change (inject_Z (-1)) with (-1)%Q. lra. }
  rewrite <- Zlt_Qlt in Ha, Hb. lia.
Qed.

(** The direction is [+1] on the draws above one half, [-1] on the others. *)
Lemma direction_of_eq (u : Q) :
  (direction_of u = 1 <-> (1 # 2 < u)%Q) /\
  (direction_of u = -1 <-> (u <= 1 # 2)%Q).
Proof.
  unfold direction_of. destruct (Qlt_le_dec (1 # 2) u) as [Hlt|Hle].
  - repeat split; try easy.
    intros Hle. now apply Qle_not_lt in Hle.
  - repeat split; try easy.
    intros Hlt. now apply Qle_not_lt in Hle.
Qed.

Lemma direction_of_cases (u : Q) : direction_of u = 1 \/ direction_of u = -1.
Proof.
  unfold direction_of. destruct (Qlt_le_dec (1 # 2) u); [now left | now right].
Qed.

(** ** The spread rule *)

(** The intensity [#spread] stores for a source holding [v]. *)
Lemma ToUint8_decayed (v decay : Z) :
  0 <= v < 256 -> 0 <= decay ->
  ToUint8 (decayed (Some v) decay) = Z.max (v - decay) 0.
Proof.
  intros Hv Hd. cbn [decayed ToUint8]. apply Z.mod_small. lia.
Qed.

Lemma spread_row0 (from : Z) (r : Renderer) (g : RNG) :
  from < width r -> spread from (r, g) = (r, g).
Proof.
  intros Hlt. unfold spread. destruct (Z.ltb_spec from (width r)); [reflexivity | lia].
Qed.

Lemma spread_below (from : Z) (r : Renderer) (g : RNG) :
  width r <= from ->
  spread from (r, g) =
    (with_pixels r
       (typed_set (r_pixels r)
          (from - width r + direction_of (draws g (S (calls g))))
          (ToUint8 (decayed (typed_get (r_pixels r) from)
                            (decay_of (draws g (calls g)))))),
     advance 2 g).
Proof.
  intros Hle. unfold spread. destruct (Z.ltb_spec from (width r)); [lia | reflexivity].
Qed.

(** What [#spread] never touches. *)
Lemma spread_frame (from : Z) (s : Renderer * RNG) :
  r_scale (fst (spread from s)) = r_scale (fst s) /\
  r_pallete (fst (spread from s)) = r_pallete (fst s) /\
  r_canvas (fst (spread from s)) = r_canvas (fst s) /\
  length (r_pixels (fst (spread from s))) = length (r_pixels (fst s)) /\
  draws (snd (spread from s)) = draws (snd s).
Proof.
  destruct s as [r g]. unfold spread.
  destruct (from <? width r); cbn; [easy|].
  now rewrite typed_set_length.
Qed.

Lemma spread_width (from : Z) (s : Renderer * RNG) :
  width (fst (spread from s)) = width (fst s) /\
  height (fst (spread from s)) = height (fst s).
Proof.
  destruct (spread_frame from s) as (Hs & _ & Hc & _).
  unfold width, height. now rewrite Hs, Hc.
Qed.

Lemma spread_rng_ok (from : Z) (s : Renderer * RNG) :
  rng_ok (snd s) -> rng_ok (snd (spread from s)).
Proof.
  destruct (spread_frame from s) as (_ & _ & _ & _ & Hd).
  unfold rng_ok. now rewrite Hd.
Qed.

(** [#spread] keeps every intensity between [0] and [top]. *)
Lemma spread_range (top from : Z) (s : Renderer * RNG) :
  0 <= top < 256 -> rng_ok (snd s) ->
  Forall (fun v => 0 <= v <= top) (r_pixels (fst s)) ->
  Forall (fun v => 0 <= v <= top) (r_pixels (fst (spread from s))).
Proof.
  destruct s as [r g]. cbn [fst snd]. intros Htop Hg Hpx.
  destruct (Z_lt_le_dec from (width r)) as [Hlt|Hle].
  - now rewrite spread_row0.
  - rewrite spread_below by exact Hle. cbn [fst with_pixels r_pixels].
    destruct (Hg (calls g)) as [H0 H1].
    pose proof (decay_of_range _ H0 H1) as Hd.
    apply Forall_typed_set; [exact Hpx|].
    destruct (typed_get (r_pixels r) from) as [v|] eqn:Hv; cbn [decayed ToUint8].
    + apply (Forall_typed_get _ _ _ _ Hpx) in Hv.
      rewrite Z.mod_small; lia.
    + cbn. lia.
Qed.

(** ** [update()] as a sequence of [#spread] calls *)

Lemma update_foldl (s : Renderer * RNG) :
  update s =
    foldl (fun s from => spread from s) s
      (cells_visited (width (fst s)) (height (fst s))).
Proof.
  unfold update, cells_visited.
  generalize (width (fst s)) as W, (height (fst s)) as H. intros W H.
  rewrite for_range_foldl. rewrite Z.sub_0_r.
  generalize (seqZ 0 W) as xs. intros xs. revert s.
  induction xs as [|x xs IH]; intros s; [reflexivity|].
  cbn [foldl flat_map]. rewrite foldl_app, IH. f_equal.
  rewrite for_range_foldl.
  generalize (seqZ 1 (H - 1)) as ys. intros ys. revert s.
  induction ys as [|y ys IHy]; intros s; [reflexivity|].
  cbn [foldl map]. apply IHy.
Qed.

(** The cells visited are those of the rows [1 .. H-1]. *)
Lemma elem_of_cells_visited (W H from : Z) :
  from ∈ cells_visited W H <->
  exists x y, 0 <= x < W /\ 1 <= y < H /\ from = y * W + x.
Proof.
  unfold cells_visited. rewrite list_elem_of_In, in_flat_map. split.
  - intros (x & Hx & Hy). apply in_map_iff in Hy as (y & <- & Hy).
    apply list_elem_of_In, elem_of_seqZ in Hx.
    apply list_elem_of_In, elem_of_seqZ in Hy.
    exists x, y. lia.
  - intros (x & y & Hx & Hy & ->). exists x. split.
    + apply list_elem_of_In, elem_of_seqZ. lia.
    + apply in_map_iff. exists y. split; [reflexivity|].
      apply list_elem_of_In, elem_of_seqZ. lia.
Qed.

Lemma ToUint8_byte (v : option Z) : 0 <= ToUint8 v < 256.
Proof.
  destruct v as [n|]; cbn [ToUint8]; [|lia].
  apply Z.mod_pos_bound. lia.
Qed.

Lemma spread_bytes (from : Z) (s : Renderer * RNG) :
  bytes (r_pixels (fst s)) -> bytes (r_pixels (fst (spread from s))).
Proof.
  destruct s as [r g]. cbn [fst]. intros Hpx. unfold spread.
  destruct (from <? width r); [exact Hpx|]. cbn.
  apply Forall_typed_set; [exact Hpx | apply ToUint8_byte].
Qed.

(** A property kept by [#spread] is kept by any sequence of calls. *)
Lemma spreads_inv (P : Renderer * RNG -> Prop) (cs : list Z) (s : Renderer * RNG) :
  (forall c s', P s' -> P (spread c s')) ->
  P s -> P (foldl (fun s c => spread c s) s cs).
Proof.
  intros Hstep. revert s.
  induction cs as [|c cs IH]; intros s Hs; [exact Hs|].
  cbn [foldl]. apply IH, Hstep, Hs.
Qed.

(** What a sequence of [#spread] calls keeps: the size of the grid and of
    its buffer, bytes in the buffer, and the oracle. *)
Lemma spreads_frame (cs : list Z) (s : Renderer * RNG) :
  let s' := foldl (fun s c => spread c s) s cs in
  width (fst s') = width (fst s) /\
  height (fst s') = height (fst s) /\
  length (r_pixels (fst s')) = length (r_pixels (fst s)) /\
  (bytes (r_pixels (fst s)) -> bytes (r_pixels (fst s'))) /\
  (rng_ok (snd s) -> rng_ok (snd s')).
Proof.
  apply (spreads_inv (fun s' =>
    width (fst s') = width (fst s) /\
    height (fst s') = height (fst s) /\
    length (r_pixels (fst s')) = length (r_pixels (fst s)) /\
    (bytes (r_pixels (fst s)) -> bytes (r_pixels (fst s'))) /\
    (rng_ok (snd s) -> rng_ok (snd s')))).
  - intros c s' (HW & HH & HL & HB & HG).
    destruct (spread_width c s') as [HW' HH'].
    destruct (spread_frame c s') as (_ & _ & _ & HL' & _).
    split_and!; try congruence.
    + intros Hb. apply spread_bytes, HB, Hb.
    + intros Hg. apply spread_rng_ok, HG, Hg.
  - easy.
Qed.


Lemma steady_ok (u : Q) : (0 <= u)%Q -> (u < 1)%Q -> rng_ok (steady u).
Proof. intros H0 H1 n. split; assumption. Qed.


(** ** [render()] and [reset()]: what they leave alone *)

(** [render()] either throws and changes nothing, or blits one frame. *)
Lemma render_cases (r : Renderer) :
  (exists e, render r = (Throw e, r)) \/
  (exists img, render r = (Ok tt, drawImage r img)).
Proof.
  unfold render. destruct (createImageData (width r) (height r)) as [im|e].
  - destruct (render_pixels _ _ _ _) as [d|e]; [right | left]; eauto.
  - left. eauto.
Qed.

Lemma render_frame (r : Renderer) :
  r_scale (snd (render r)) = r_scale r /\
  r_pallete (snd (render r)) = r_pallete r /\
  r_pixels (snd (render r)) = r_pixels r /\
  canvas_width (r_canvas (snd (render r))) = canvas_width (r_canvas r) /\
  canvas_height (r_canvas (snd (render r))) = canvas_height (r_canvas r).
Proof.
  destruct (render_cases r) as [[e ->]|[img ->]]; easy.
Qed.

Lemma render_width (r : Renderer) :
  width (snd (render r)) = width r /\ height (snd (render r)) = height r.
Proof.
  destruct (render_frame r) as (Hs & _ & _ & Hw & Hh).
  unfold width, height. now rewrite Hs, Hw, Hh.
Qed.

(** The buffer that [reset()] builds. *)
Lemma reset_pixels (r : Renderer) :
  r_pixels (snd (reset r)) =
    for_range 0 (width r) (fun x px =>
      typed_set px ((height r - 1) * width r + x) 36)
      (Uint8Array_new (width r * height r)).
Proof.
  unfold reset. now destruct (render_frame (with_pixels r
    (for_range 0 (width r) (fun x px =>
       typed_set px ((height r - 1) * width r + x) (ToUint8 (Some 36)))
       (Uint8Array_new (width r * height r))))) as (_ & _ & -> & _).
Qed.

Lemma reset_width (r : Renderer) :
  width (snd (reset r)) = width r /\ height (snd (reset r)) = height r /\
  r_scale (snd (reset r)) = r_scale r.
Proof.
  unfold reset.
  set (r1 := with_pixels r _).
  destruct (render_width r1) as [Hw Hh].
  destruct (render_frame r1) as (Hs & _).
  rewrite Hw, Hh, Hs. easy.
Qed.

Section Loops_indexed.
Context {St : Type}.

Lemma for_loop_inv_idx (P : Z -> St -> Prop) (body : Z -> St -> St)
    (lo hi : Z) (n : nat) (i : Z) (s : St) :
  lo <= i -> i + Z.of_nat n = hi ->
  (forall j s', lo <= j < hi -> P j s' -> P (j + 1) (body j s')) ->
  P i s -> P hi (for_loop n i body s).
Proof.
  intros Hlo Hhi Hstep. revert i s Hlo Hhi.
  induction n as [|n IH]; intros i s Hlo Hhi Hs.
  - cbn [for_loop]. now replace hi with i by lia.
  - cbn [for_loop]. apply IH; [lia | lia |].
    apply Hstep; [lia | exact Hs].
Qed.

(** The invariant rule with the loop counter in the invariant. *)
Lemma for_range_inv_idx (P : Z -> St -> Prop) (body : Z -> St -> St)
    (lo hi : Z) (s : St) :
  lo <= hi -> P lo s ->
  (forall i s', lo <= i < hi -> P i s' -> P (i + 1) (body i s')) ->
  P hi (for_range lo hi body s).
Proof.
  intros Hle Hs Hstep. unfold for_range.
  apply for_loop_inv_idx with (lo := lo); [lia | lia | exact Hstep | exact Hs].
Qed.
End Loops_indexed.

(** The buffer of [reset()], cell by cell: [36] on the [W] cells that start
    at [(H-1)*W], [0] elsewhere. *)
Lemma seeded_cells (W H : Z) :
  let px := for_range 0 W (fun x px => typed_set px ((H - 1) * W + x) 36)
              (Uint8Array_new (W * H)) in
  length px = Z.to_nat (W * H) /\
  forall i, 0 <= i < W * H ->
    typed_get px i =
      Some (if ((H - 1) * W <=? i) && (i <? (H - 1) * W + W) then 36 else 0).
Proof.
  set (base := (H - 1) * W).
  destruct (Z_le_gt_dec W 0) as [Hle|Hgt].
  - cbn zeta. rewrite for_range_empty by lia. unfold Uint8Array_new.
    rewrite length_replicate. split; [reflexivity|].
    intros i Hi. unfold typed_get, array_get.
    destruct (Z.ltb_spec i 0); [lia|].
    rewrite lookup_replicate_2 by lia.
    destruct (Z.leb_spec base i), (Z.ltb_spec i (base + W)); cbn; (reflexivity || lia).
  - cbn zeta.
    apply (for_range_inv_idx (fun k px =>
      length px = Z.to_nat (W * H) /\
      forall i, 0 <= i < W * H ->
        typed_get px i =
          Some (if (base <=? i) && (i <? base + k) then 36 else 0))); [lia | |].
    + unfold Uint8Array_new. rewrite length_replicate. split; [reflexivity|].
      intros i Hi. unfold typed_get, array_get.
      destruct (Z.ltb_spec i 0); [lia|].
      rewrite lookup_replicate_2 by lia.
      destruct (Z.leb_spec base i), (Z.ltb_spec i (base + 0)); cbn; (reflexivity || lia).
    + intros k px Hk [Hlen Hcells]. rewrite typed_set_length.
      split; [exact Hlen|]. intros i Hi.
      destruct (Z.eq_dec i (base + k)) as [->|Hne].
      * rewrite typed_get_set_eq by lia.
        destruct (Z.leb_spec base (base + k)), (Z.ltb_spec (base + k) (base + (k + 1)));
          cbn; (reflexivity || lia).
      * rewrite typed_get_set_ne by lia. rewrite Hcells by lia.
        destruct (Z.leb_spec base i), (Z.ltb_spec i (base + k)),
          (Z.ltb_spec i (base + (k + 1))); cbn; (reflexivity || lia).
Qed.

(** C3. Immediately after [reset()], whatever the width and the height of
    the grid, the buffer has one cell per grid cell, every cell of the
    bottom row holds 36 and every cell of every other row holds 0. *)
Theorem reset_source_row (r : Renderer) :
  let W := width r in
  let H := height r in
  let r' := snd (reset r) in
  width r' = W /\ height r' = H /\
  length (r_pixels r') = Z.to_nat (W * H) /\
  forall x y, 0 <= x < W -> 0 <= y < H ->
    typed_get (r_pixels r') (y * W + x) = Some (if y =? H - 1 then 36 else 0).
Proof.
  intros W H r'. subst r'.
  destruct (reset_width r) as (Hw & Hh & _).
  rewrite reset_pixels. fold W H.
  destruct (seeded_cells W H) as [Hlen Hcells].
  split_and!; [exact Hw | exact Hh | exact Hlen |].
  intros x y Hx Hy. rewrite Hcells by nia. f_equal.
  destruct (Z.eqb_spec y (H - 1)) as [->|Hne].
  - destruct (Z.leb_spec ((H - 1) * W) ((H - 1) * W + x)),
      (Z.ltb_spec ((H - 1) * W + x) ((H - 1) * W + W)); cbn; (reflexivity || lia).
  - destruct (Z.leb_spec ((H - 1) * W) (y * W + x)),
      (Z.ltb_spec (y * W + x) ((H - 1) * W + W)); cbn; (reflexivity || nia).
Qed.

Lemma reset_source_row_witness :
  typed_get (r_pixels grid4) (3 * 4 + 1) = Some 36 /\
  typed_get (r_pixels grid4) (2 * 4 + 1) = Some 0.
Proof.
  destruct (reset_source_row fresh4) as (_ & _ & _ & Hcells).
  split.
  - apply (Hcells 1 3); vm_compute; split; congruence.
  - apply (Hcells 1 2); vm_compute; split; congruence.
Defined.

(** ** The range of the intensities *)

Lemma reset_intensities (r : Renderer) : intensities (r_pixels (snd (reset r))).
Proof.
  rewrite reset_pixels. apply (for_range_inv intensities).
  - apply Forall_replicate. lia.
  - intros x px _ Hpx. apply Forall_typed_set; [exact Hpx | lia].
Qed.

Lemma update_intensities (r : Renderer) (g : RNG) :
  rng_ok g -> intensities (r_pixels r) ->
  intensities (r_pixels (fst (update (r, g)))).
Proof.
  intros Hg Hpx. rewrite update_foldl.
  apply (spreads_inv (fun s => rng_ok (snd s) /\ intensities (r_pixels (fst s)))).
  - intros c s [Hg' Hpx']. split.
    + now apply spread_rng_ok.
    + apply spread_range; [lia | exact Hg' | exact Hpx'].
  - split; assumption.
Qed.

(** C2. In every renderer that [reset()] followed by any number of
    [update()] calls produces, every cell holds an integer of [0, 36]. *)
Theorem intensity_range (r : Renderer) :
  reachable r -> Forall (fun v => 0 <= v <= 36) (r_pixels r).
Proof.
  induction 1 as [r Hs|r g Hr IH Hg].
  - apply reset_intensities.
  - apply update_intensities; assumption.
Qed.

Lemma intensity_range_witness :
  Forall (fun v => 0 <= v <= 36)
    (r_pixels (fst (update (fst (update (grid4, steady (3 # 4))), steady (1 # 4))))).
Proof.
  apply intensity_range.
  apply reachable_update; [|apply steady_ok; [discriminate | reflexivity]].
  apply reachable_update; [|apply steady_ok; [discriminate | reflexivity]].
  apply reachable_reset. reflexivity.
Defined.

(** ** The rasteriser *)

Lemma render_pixels_cons (pal : ColorPallete) (v : Z) (px : list Z) (i : Z)
    (d : list Z) (c : Color) :
  array_get pal v = Some c ->
  render_pixels pal (v :: px) i d = render_pixels pal px (i + 1) (paint pal v (i * 4) d).
Proof.
  intros Hc. cbn [render_pixels]. unfold paint. rewrite Hc. reflexivity.
Qed.

Lemma paint_length (pal : ColorPallete) (v o : Z) (d : list Z) :
  length (paint pal v o d) = length d.
Proof.
  unfold paint. destruct (array_get pal v); [|reflexivity].
  destruct (v =? 0); now rewrite ?typed_set_length.
Qed.

(** [paint] writes inside the four bytes of its cell only. *)
Lemma paint_other (pal : ColorPallete) (v o k : Z) (d : list Z) :
  k < o \/ o + 4 <= k -> typed_get (paint pal v o d) k = typed_get d k.
Proof.
  intros Hk. unfold paint. destruct (array_get pal v); [|reflexivity].
  destruct (v =? 0); now rewrite ?typed_get_set_ne by lia.
Qed.

Lemma paint_zero (pal : ColorPallete) (o : Z) (d : list Z) (c : Color) :
  array_get pal 0 = Some c -> 0 <= o -> o + 4 <= Z.of_nat (length d) ->
  typed_get (paint pal 0 o d) (o + 3) = Some 0 /\
  typed_get (paint pal 0 o d) o = typed_get d o /\
  typed_get (paint pal 0 o d) (o + 1) = typed_get d (o + 1) /\
  typed_get (paint pal 0 o d) (o + 2) = typed_get d (o + 2).
Proof.
  intros Hc Ho Hlen. unfold paint. rewrite Hc. cbn [Z.eqb].
  rewrite typed_get_set_eq by lia.
  now rewrite !typed_get_set_ne by lia.
Qed.

Lemma paint_hot (pal : ColorPallete) (v o : Z) (d : list Z) (c : Color) :
  array_get pal v = Some c -> v <> 0 -> 0 <= o -> o + 4 <= Z.of_nat (length d) ->
  typed_get (paint pal v o d) o = Some (ToUint8Clamp (red c)) /\
  typed_get (paint pal v o d) (o + 1) = Some (ToUint8Clamp (green c)) /\
  typed_get (paint pal v o d) (o + 2) = Some (ToUint8Clamp (blue c)) /\
  typed_get (paint pal v o d) (o + 3) = Some 255.
Proof.
  intros Hc Hv Ho Hlen. unfold paint. rewrite Hc.
  destruct (Z.eqb_spec v 0) as [->|_]; [contradiction|].
  split_and!.
  - rewrite !typed_get_set_ne by lia. apply typed_get_set_eq. lia.
  - rewrite !typed_get_set_ne by lia. apply typed_get_set_eq.
    rewrite typed_set_length. lia.
  - rewrite !typed_get_set_ne by lia. apply typed_get_set_eq.
    rewrite !typed_set_length. lia.
  - apply typed_get_set_eq. rewrite !typed_set_length. lia.
Qed.

(** The loop of [render()]: when the palette has an entry for every
    intensity, the loop ends normally; in the frame, the [j]-th of the
    remaining cells is transparent when it is cold and has its palette
    entry at full opacity when it is hot. *)
Lemma render_pixels_spec (pal : ColorPallete) (px : list Z) :
  forall (i : Z) (d : list Z),
    0 <= i -> (i + Z.of_nat (length px)) * 4 <= Z.of_nat (length d) ->
    Forall (fun v => is_Some (array_get pal v)) px ->
    exists d',
      render_pixels pal px i d = Ok d' /\
      length d' = length d /\
      (forall k, k < i * 4 -> typed_get d' k = typed_get d k) /\
      (forall j v, px !! j = Some v ->
         let o := (i + Z.of_nat j) * 4 in
         (v = 0 ->
            typed_get d' (o + 3) = Some 0 /\
            typed_get d' o = typed_get d o /\
            typed_get d' (o + 1) = typed_get d (o + 1) /\
            typed_get d' (o + 2) = typed_get d (o + 2)) /\
         (v <> 0 ->
            exists c, array_get pal v = Some c /\
              typed_get d' o = Some (ToUint8Clamp (red c)) /\
              typed_get d' (o + 1) = Some (ToUint8Clamp (green c)) /\
              typed_get d' (o + 2) = Some (ToUint8Clamp (blue c)) /\
              typed_get d' (o + 3) = Some 255)).
Proof.
  induction px as [|v px IH]; intros i d Hi Hlen Hpal.
  - exists d. split_and!; try reflexivity. intros j v Hj. discriminate.
  - apply Forall_cons in Hpal as [[c Hc] Hpal].
    cbn [length] in Hlen.
    destruct (IH (i + 1) (paint pal v (i * 4) d)) as (d' & Hrun & Hlen' & Hlow & Hcells).
    { lia. } { rewrite paint_length. lia. } { exact Hpal. }
    exists d'. rewrite (render_pixels_cons _ _ _ _ _ c Hc).
    split_and!.
    + exact Hrun.
    + now rewrite Hlen', paint_length.
    + intros k Hk. rewrite Hlow by lia. apply paint_other. lia.
    + intros [|j] w Hj o; subst o.
      * cbn in Hj. injection Hj as <-.
        replace ((i + Z.of_nat 0) * 4) with (i * 4) by lia.
        rewrite !Hlow by lia. split.
        -- intros ->. apply (paint_zero pal (i * 4) d c Hc); lia.
        -- intros Hv. exists c. split; [exact Hc|].
           apply (paint_hot pal v (i * 4) d c Hc Hv); lia.
      * cbn in Hj. specialize (Hcells j w Hj). cbn zeta in Hcells.
        replace ((i + 1 + Z.of_nat j) * 4) with ((i + Z.of_nat (S j)) * 4) in Hcells by lia.
        destruct Hcells as [Hzero Hhot]. split; [|exact Hhot].
        intros Hw. destruct (Hzero Hw) as (H3 & H0 & H1 & H2).
        rewrite H0, H1, H2, !paint_other by lia. easy.
Qed.

(** A fresh frame of [createImageData] is transparent black. *)
Lemma createImageData_ok (sw sh : Z) :
  0 < sw -> 0 < sh ->
  createImageData sw sh =
    Ok {| im_width := sw; im_height := sh;
          data := replicate (Z.to_nat (4 * sw * sh)) 0 |}.
Proof.
  intros Hw Hh. unfold createImageData.
  destruct (Z.eqb_spec sw 0); [lia|]. destruct (Z.eqb_spec sh 0); [lia|].
  cbn [orb]. now rewrite !Z.abs_eq by lia.
Qed.

Lemma ToUint8Clamp_byte (v : Z) : 0 <= v <= 255 -> ToUint8Clamp v = v.
Proof. unfold ToUint8Clamp. lia. Qed.

(** C4. For every grid with a 37-entry palette, [render()] blits a frame
    in which a cell of intensity 0 has alpha 0 (whatever the palette has
    at index 0; the pixel is transparent black) and a cell of intensity
    above 0 has the red, green and blue of its palette entry and alpha
    255. *)
Theorem render_transparency (r : Renderer) :
  length (r_pallete r) = 37%nat ->
  Forall color8 (r_pallete r) ->
  Forall (fun v => 0 <= v <= 36) (r_pixels r) ->
  length (r_pixels r) = Z.to_nat (width r * height r) ->
  0 < width r -> 0 < height r ->
  exists img,
    render r = (Ok tt, drawImage r img) /\
    im_width img = width r /\ im_height img = height r /\
    forall i v, typed_get (r_pixels r) i = Some v ->
      (v = 0 ->
         typed_get (data img) (i * 4 + 3) = Some 0 /\
         typed_get (data img) (i * 4) = Some 0 /\
         typed_get (data img) (i * 4 + 1) = Some 0 /\
         typed_get (data img) (i * 4 + 2) = Some 0) /\
      (0 < v ->
         exists c, array_get (r_pallete r) v = Some c /\
           typed_get (data img) (i * 4) = Some (red c) /\
           typed_get (data img) (i * 4 + 1) = Some (green c) /\
           typed_get (data img) (i * 4 + 2) = Some (blue c) /\
           typed_get (data img) (i * 4 + 3) = Some 255).
Proof.
  intros Hpal Hcol Hpx Hlen HW HH.
  assert (Hentries : Forall (fun v => is_Some (array_get (r_pallete r) v)) (r_pixels r)).
  { eapply Forall_impl; [exact Hpx|]. intros v Hv. cbn beta in Hv.
    destruct (array_get_is_Some (r_pallete r) v) as [c Hc]; [lia | eauto]. }
  set (blank := replicate (Z.to_nat (4 * width r * height r)) 0).
  destruct (render_pixels_spec (r_pallete r) (r_pixels r) 0 blank)
    as (d & Hrun & Hlen' & _ & Hcells).
  { lia. }
  { unfold blank. rewrite length_replicate, Hlen. nia. }
  { exact Hentries. }
  exists {| im_width := width r; im_height := height r; data := d |}.
  split_and!; try reflexivity.
  - unfold render. rewrite createImageData_ok by assumption.
    cbn [data im_width im_height]. fold blank. now rewrite Hrun.
  - intros i v Hv. cbn [data].
    pose proof (array_get_lt _ _ _ Hv) as Hi.
    apply array_get_Some in Hv as [_ Hv].
    specialize (Hcells _ _ Hv). cbn zeta in Hcells.
    replace ((0 + Z.of_nat (Z.to_nat i)) * 4) with (i * 4) in Hcells by lia.
    destruct Hcells as [Hzero Hhot].
    assert (Hblank : forall k, 0 <= k < 4 * width r * height r ->
                               typed_get blank k = Some 0).
    { intros k Hk. unfold typed_get, array_get, blank.
      destruct (Z.ltb_spec k 0); [lia|]. apply lookup_replicate_2. lia. }
    split.
    + intros Hv0. destruct (Hzero Hv0) as (H3 & H0 & H1 & H2).
      rewrite H0, H1, H2, !Hblank by nia. easy.
    + intros Hv0. destruct Hhot as (c & Hc & H0 & H1 & H2 & H3); [lia|].
      exists c. split; [exact Hc|].
      apply array_get_Some in Hc as [_ Hc].
      pose proof (proj1 (Forall_lookup _ _) Hcol _ _ Hc) as (Hr & Hg & Hb).
      rewrite H0, H1, H2, H3, !ToUint8Clamp_byte by assumption. easy.
Qed.

Lemma render_transparency_witness :
  exists img,
    render grid4 = (Ok tt, drawImage grid4 img) /\
    typed_get (data img) (1 * 4 + 3) = Some 0 /\
    typed_get (data img) (13 * 4 + 3) = Some 255.
Proof.
  destruct (render_transparency grid4) as (img & Hrun & _ & _ & Hcells).
  - reflexivity.
  - unfold color8.
    let pal := eval vm_compute in (r_pallete grid4) in
    change (r_pallete grid4) with pal.
    repeat (constructor; [cbn; lia|]). constructor.
  - let px := eval vm_compute in (r_pixels grid4) in
    change (r_pixels grid4) with px.
    repeat (constructor; [lia|]). constructor.
  - reflexivity.
  - reflexivity.
  - reflexivity.
  - exists img. split; [exact Hrun|].
    destruct (Hcells 1 0 eq_refl) as [Hcold _].
    destruct (Hcells 13 36 eq_refl) as [_ Hhot].
    destruct (Hcold eq_refl) as (Ha & _).
    destruct Hhot as (c & _ & _ & _ & _ & Ha'); [lia|].
    split; [exact Ha | exact Ha'].
Defined.

(** ** Where [update()] writes *)

Lemma seqZ_snoc (m n : Z) :
  0 < n -> seqZ m n = seqZ m (n - 1) ++ [m + (n - 1)].
Proof.
  intros Hn. replace n with (Z.of_nat (S (Z.to_nat (n - 1)))) at 1 by lia.
  rewrite seqZ_S. now replace (Z.of_nat (Z.to_nat (n - 1))) with (n - 1) by lia.
Qed.

Lemma cells_visited_nil (W H : Z) : W <= 0 \/ H <= 1 -> cells_visited W H = [].
Proof.
  intros [HW|HH]; unfold cells_visited.
  - now rewrite (seqZ_nil 0 W).
  - rewrite (seqZ_nil 1 (H - 1)) by lia.
    induction (seqZ 0 W) as [|x xs IH]; [reflexivity | exact IH].
Qed.

(** On a grid that is not empty, the last cell visited is the last cell of
    the bottom row; all the cells before it lie at least two below the end
    of the buffer. *)
Lemma cells_visited_last (W H : Z) :
  0 < W -> 1 < H ->
  exists prefix,
    cells_visited W H = prefix ++ [H * W - 1] /\
    forall c, c ∈ prefix -> W <= c <= H * W - 2.
Proof.
  intros HW HH. unfold cells_visited.
  set (column := fun x => map (fun y => y * W + x) (seqZ 1 (H - 1))).
  rewrite (seqZ_snoc 0 W), flat_map_app by lia.
  cbn [flat_map]. rewrite app_nil_r.
  unfold column at 2. rewrite (seqZ_snoc 1 (H - 1)), map_app by lia.
  cbn [map]. rewrite app_assoc.
  eexists. split.
  - f_equal. f_equal. lia.
  - intros c [Hc|Hc]%elem_of_app.
    + apply list_elem_of_In, in_flat_map in Hc as (x & Hx & Hy).
      unfold column in Hy.
      apply in_map_iff in Hy as (y & <- & Hy).
      apply list_elem_of_In, elem_of_seqZ in Hx.
      apply list_elem_of_In, elem_of_seqZ in Hy. nia.
    + apply list_elem_of_In, in_map_iff in Hc as (y & <- & Hy).
      apply list_elem_of_In, elem_of_seqZ in Hy. nia.
Qed.

Lemma cells_visited_bounds (W H c : Z) :
  c ∈ cells_visited W H -> W <= c <= H * W - 1.
Proof.
  intros (x & y & Hx & Hy & ->)%elem_of_cells_visited. nia.
Qed.

(** A call on a source that lies less than a row minus one above [B]
    writes below [B]. *)
Lemma spread_keeps (B : Z) (r0 : Renderer) (c : Z) (s : Renderer * RNG) :
  c <= B + width r0 - 2 -> keeps B r0 s -> keeps B r0 (spread c s).
Proof.
  intros Hc [HW Hpx]. destruct (spread_width c s) as [HW' _].
  split; [congruence|]. intros i Hi. rewrite <- (Hpx i Hi).
  destruct s as [r g]. cbn [fst] in *.
  destruct (Z_lt_le_dec c (width r)) as [Hlt|Hle].
  - now rewrite spread_row0.
  - rewrite spread_below by exact Hle. cbn [fst with_pixels r_pixels].
    apply typed_get_set_ne.
    destruct (direction_of_cases (draws g (S (calls g)))) as [-> | ->]; lia.
Qed.

Lemma spreads_keep (B : Z) (r0 : Renderer) (cs : list Z) (s : Renderer * RNG) :
  (forall c, c ∈ cs -> c <= B + width r0 - 2) ->
  keeps B r0 s -> keeps B r0 (foldl (fun s c => spread c s) s cs).
Proof.
  revert s. induction cs as [|c cs IH]; intros s Hcs Hs; [exact Hs|].
  cbn [foldl]. apply IH.
  - intros c' Hc'. apply Hcs. now apply elem_of_cons; right.
  - apply spread_keeps; [|exact Hs]. apply Hcs. now apply elem_of_cons; left.
Qed.

(** [update()] leaves the bottom row alone, its first cell apart. *)
Lemma update_keeps_bottom (r : Renderer) (g : RNG) (i : Z) :
  (height r - 1) * width r < i ->
  typed_get (r_pixels (fst (update (r, g)))) i = typed_get (r_pixels r) i.
Proof.
  intros Hi. rewrite update_foldl. cbn [fst].
  apply (spreads_keep ((height r - 1) * width r + 1) r); [| easy | lia].
  intros c Hc%cells_visited_bounds. lia.
Qed.

(** [update()] ends with the call on the last cell of the bottom row; the
    calls before it leave the whole bottom row alone. *)
Lemma update_last_call (r : Renderer) (g : RNG) :
  0 < width r -> 1 < height r ->
  exists s,
    update (r, g) = spread (height r * width r - 1) s /\
    width (fst s) = width r /\
    length (r_pixels (fst s)) = length (r_pixels r) /\
    draws (snd s) = draws g /\
    forall i, (height r - 1) * width r <= i ->
      typed_get (r_pixels (fst s)) i = typed_get (r_pixels r) i.
Proof.
  intros HW HH.
  destruct (cells_visited_last _ _ HW HH) as (prefix & Hcells & Hprefix).
  exists (foldl (fun s c => spread c s) (r, g) prefix).
  destruct (spreads_frame prefix (r, g)) as (Hw & _ & Hlen & _).
  destruct (spreads_keep ((height r - 1) * width r) r prefix (r, g)) as [_ Hkeep].
  { intros c Hc%Hprefix. lia. }
  { easy. }
  split_and!.
  - rewrite update_foldl. cbn [fst]. now rewrite Hcells, foldl_snoc.
  - exact Hw.
  - exact Hlen.
  - apply (spreads_inv (fun s' => draws (snd s') = draws g)); [|reflexivity].
    intros c s' <-. apply spread_frame.
  - exact Hkeep.
Qed.

Lemma update_length (r : Renderer) (g : RNG) :
  length (r_pixels (fst (update (r, g)))) = length (r_pixels r).
Proof.
  rewrite update_foldl.
  destruct (spreads_frame (cells_visited (width r) (height r)) (r, g))
    as (_ & _ & Hlen & _).
  exact Hlen.
Qed.

(** C10. [update()] is a total function of the grid and never writes
    outside the pixel buffer, whose length it keeps; a zero-width or
    zero-height grid is left as it is; a store at an index outside the
    buffer changes no cell, as for the source of row 1, column 0 with
    the direction [-1], whose destination is [-1]. *)
Theorem update_in_bounds (r : Renderer) (g : RNG) :
  length (r_pixels (fst (update (r, g)))) = length (r_pixels r) /\
  (width r <= 0 \/ height r <= 0 -> update (r, g) = (r, g)) /\
  (forall from,
     let to := from - width r + direction_of (draws g (S (calls g))) in
     to < 0 \/ Z.of_nat (length (r_pixels r)) <= to ->
     r_pixels (fst (spread from (r, g))) = r_pixels r) /\
  (0 < width r -> direction_of (draws g (S (calls g))) = -1 ->
     1 * width r + 0 - width r + direction_of (draws g (S (calls g))) = -1 /\
     r_pixels (fst (spread (1 * width r + 0) (r, g))) = r_pixels r).
Proof.
  split_and!.
  - apply update_length.
  - intros Hempty. rewrite update_foldl. cbn [fst].
    rewrite cells_visited_nil; [reflexivity | lia].
  - intros from to Hto.
    destruct (Z_lt_le_dec from (width r)) as [Hlt|Hle].
    + now rewrite spread_row0.
    + rewrite spread_below by exact Hle. cbn [fst with_pixels r_pixels].
      now apply typed_set_out.
  - intros HW Hdir. split; [lia|].
    rewrite spread_below by lia. cbn [fst with_pixels r_pixels].
    apply typed_set_out. left. lia.
Qed.

Lemma update_in_bounds_witness :
  r_pixels (fst (spread (1 * 4 + 0) (grid4, steady (1 # 4)))) = r_pixels grid4.
Proof.
  destruct (update_in_bounds grid4 (steady (1 # 4))) as (_ & _ & _ & Hrow1).
  apply Hrow1; reflexivity.
Defined.

(** After [reset()], the last cell of the bottom row holds 36. *)
Lemma reset_last_cell (r : Renderer) :
  0 < width r -> 1 < height r ->
  typed_get (r_pixels (snd (reset r))) (height r * width r - 1) = Some 36.
Proof.
  intros HW HH. rewrite reset_pixels.
  destruct (seeded_cells (width r) (height r)) as [_ Hcells].
  rewrite Hcells by nia.
  destruct (Z.leb_spec ((height r - 1) * width r) (height r * width r - 1)),
    (Z.ltb_spec (height r * width r - 1) ((height r - 1) * width r + width r));
    cbn; (reflexivity || lia).
Qed.

Lemma reset_length (r : Renderer) :
  length (r_pixels (snd (reset r))) = Z.to_nat (width r * height r).
Proof.
  rewrite reset_pixels. apply seeded_cells.
Qed.

(** A draw above one half decays by 1 or 2. *)
Lemma decay_of_upper_half (u : Q) :
  (1 # 2 < u)%Q -> (u < 1)%Q -> 1 <= decay_of u <= 2.
Proof.
  intros Hlo Hhi.
  assert (H0 : (0 <= u)%Q) by lra.
  pose proof (decay_of_range u H0 Hhi) as Hr.
  destruct (Z.eq_dec (decay_of u) 0) as [E|]; [|lia].
  apply decay_of_eq in E as [_ E]. unfold Qdiv in E.
  change (inject_Z (0 + 1) * / 3)%Q with (1 # 3)%Q in E. lra.
Qed.

(** The last call of [update()], when its direction is [+1]: the first cell
    of the bottom row receives the decayed intensity of the last one. *)
Lemma update_wraps_bottom (r : Renderer) (u : Q) (v : Z) :
  0 < width r -> 1 < height r ->
  length (r_pixels r) = Z.to_nat (width r * height r) ->
  typed_get (r_pixels r) (height r * width r - 1) = Some v ->
  0 <= v < 256 ->
  (1 # 2 < u)%Q -> (u < 1)%Q ->
  typed_get (r_pixels (fst (update (r, steady u)))) ((height r - 1) * width r) =
    Some (Z.max (v - decay_of u) 0).
Proof.
  intros HW HH Hlen Hv Hbyte Hlo Hhi.
  destruct (update_last_call r (steady u) HW HH) as ([r' g'] & -> & Hw & Hl & Hd & Hkeep).
  cbn [fst snd] in Hw, Hl, Hd, Hkeep.
  rewrite spread_below by nia. cbn [fst with_pixels r_pixels].
  rewrite Hd, Hw. cbn [steady draws].
  destruct (direction_of_eq u) as [[_ Hdir] _]. rewrite (Hdir Hlo).
  rewrite Hkeep, Hv by lia.
  pose proof (decay_of_upper_half u Hlo Hhi) as Hdecay.
  rewrite ToUint8_decayed by lia.
  replace (height r * width r - 1 - width r + 1) with ((height r - 1) * width r) by lia.
  apply typed_get_set_eq. nia.
Qed.

(** C9. A source in the last column of a row [y >= 1] whose direction draw
    is [+1] stores at the index [y * width], the column 0 of its own row
    and not a cell of the row above; so one [update()] after [reset()] can
    lower a cell of the bottom row below 36: with every draw above one
    half, the first cell of the bottom row ends at [36 - decay], which is
    34 or 35. *)
Theorem last_column_wraps (r : Renderer) (g : RNG) :
  (forall y, 0 < width r -> 1 <= y ->
     direction_of (draws g (S (calls g))) = 1 ->
     let from := y * width r + (width r - 1) in
     from - width r + direction_of (draws g (S (calls g))) = y * width r + 0 /\
     r_pixels (fst (spread from (r, g))) =
       typed_set (r_pixels r) (y * width r + 0)
         (ToUint8 (decayed (typed_get (r_pixels r) from)
                           (decay_of (draws g (calls g)))))) /\
  (forall u, (1 # 2 < u)%Q -> (u < 1)%Q ->
     0 < width r -> 1 < height r ->
     let r' := fst (update (snd (reset r), steady u)) in
     typed_get (r_pixels r') ((height r - 1) * width r + 0) =
       Some (36 - decay_of u) /\
     34 <= 36 - decay_of u < 36).
Proof.
  split.
  - intros y HW Hy Hdir from. subst from. rewrite Hdir. split; [lia|].
    rewrite spread_below by nia. cbn [fst with_pixels r_pixels].
    rewrite Hdir. f_equal. lia.
  - intros u Hlo Hhi HW HH r'. subst r'.
    destruct (reset_width r) as (Hw & Hh & _).
    pose proof (decay_of_upper_half u Hlo Hhi) as Hdecay.
    split; [|lia].
    pose proof (update_wraps_bottom (snd (reset r)) u 36) as Hwrap.
    rewrite Hw, Hh in Hwrap. rewrite Z.add_0_r.
    rewrite Hwrap; try assumption.
    + f_equal. lia.
    + apply reset_length.
    + now apply reset_last_cell.
    + lia.
Qed.

Lemma last_column_wraps_witness :
  typed_get (r_pixels (fst (update (snd (reset fresh4), steady (3 # 4)))))
    ((4 - 1) * 4 + 0) = Some (36 - 2).
Proof.
  destruct (last_column_wraps fresh4 (steady (3 # 4))) as [_ Hbottom].
  apply (Hbottom (3 # 4)%Q); reflexivity.
Defined.

(** ** One pass over a fresh grid *)

(** The first cell of the bottom row after [update()]: as it was, or the
    decayed intensity of the last cell of that row. *)
Lemma update_bottom_first (r : Renderer) (g : RNG) (v v0 : Z) :
  0 < width r -> 1 < height r -> rng_ok g ->
  length (r_pixels r) = Z.to_nat (width r * height r) ->
  typed_get (r_pixels r) (height r * width r - 1) = Some v ->
  typed_get (r_pixels r) ((height r - 1) * width r) = Some v0 ->
  0 <= v < 256 ->
  exists decay, 0 <= decay <= 2 /\
    (typed_get (r_pixels (fst (update (r, g)))) ((height r - 1) * width r) = Some v0 \/
     typed_get (r_pixels (fst (update (r, g)))) ((height r - 1) * width r) =
       Some (Z.max (v - decay) 0)).
Proof.
  intros HW HH Hg Hlen Hv Hv0 Hbyte.
  destruct (update_last_call r g HW HH) as ([r' g'] & -> & Hw & Hl & Hd & Hkeep).
  cbn [fst snd] in Hw, Hl, Hd, Hkeep.
  rewrite spread_below by nia. cbn [fst with_pixels r_pixels].
  rewrite Hd, Hw.
  destruct (Hg (calls g')) as [H0 H1].
  pose proof (decay_of_range _ H0 H1) as Hdecay.
  exists (decay_of (draws g (calls g'))). split; [exact Hdecay|].
  destruct (direction_of_cases (draws g (S (calls g')))) as [-> | ->].
  - right. rewrite Hkeep, Hv by lia. rewrite ToUint8_decayed by lia.
    replace (height r * width r - 1 - width r + 1) with ((height r - 1) * width r) by lia.
    apply typed_get_set_eq. nia.
  - left. rewrite typed_get_set_ne by lia. rewrite Hkeep by lia. exact Hv0.
Qed.





(** ** The controller *)

Lemma set_pallete_rejects (update : ColorPallete) (r : Renderer) :
  length update <> 37%nat ->
  set_pallete update r =
    (Throw (TypeError "Color pallette must be 37 elements."), r).
Proof.
  intros Hlen. unfold set_pallete.
  destruct (Z.eqb_spec (Z.of_nat (length update)) 37); [lia | reflexivity].
Qed.

Lemma set_pallete_accepts (update : ColorPallete) (r : Renderer) :
  length update = 37%nat ->
  set_pallete update r = (Ok tt, with_pallete r update).
Proof.
  intros Hlen. unfold set_pallete. now rewrite Hlen.
Qed.

(** A tick on a palette that is not of 37 entries throws at its first
    step and changes nothing. *)
Lemma animate_rejects (b : Burn) :
  length (pallete b) <> 37%nat ->
  animate b = (Throw (TypeError "Color pallette must be 37 elements."), b).
Proof.
  intros Hlen. destruct b as [t p i r g tm]. cbn [pallete] in Hlen.
  unfold animate, bind, gets, on_renderer. cbn [pallete renderer].
  now rewrite set_pallete_rejects.
Qed.

(** A tick that runs to its end. *)
Lemma animate_runs (b : Burn) (r : Renderer) (g : RNG) (img : ImageData) :
  length (pallete b) = 37%nat ->
  update (with_pallete (renderer b) (pallete b), random b) = (r, g) ->
  render r = (Ok tt, drawImage r img) ->
  animate b = (Ok tt, ticked b r g img).
Proof.
  intros Hlen Hupdate Hrender. destruct b as [t p i r0 g0 tm].
  cbn [pallete renderer random] in *.
  unfold animate, bind, gets, on_renderer, renderer_update, setTimeout, modify.
  cbn [pallete renderer random].
  rewrite set_pallete_accepts by exact Hlen.
  cbn [with_renderer renderer random]. rewrite Hupdate.
  cbn [with_renderer renderer random]. rewrite Hrender. reflexivity.
Qed.

(** The loop of [render()] ends normally when the palette has an entry for
    every intensity of the grid. *)
Lemma render_pixels_returns (pal : ColorPallete) (px : list Z) :
  Forall (fun v => is_Some (array_get pal v)) px ->
  forall i d, exists d', render_pixels pal px i d = Ok d'.
Proof.
  induction 1 as [|v px [c Hc] _ IH]; intros i d.
  - now exists d.
  - rewrite (render_pixels_cons _ _ _ _ _ c Hc). apply IH.
Qed.

Lemma render_returns (r : Renderer) :
  length (r_pallete r) = 37%nat -> intensities (r_pixels r) ->
  0 < width r -> 0 < height r ->
  exists img, render r = (Ok tt, drawImage r img).
Proof.
  intros Hpal Hpx HW HH. unfold render.
  rewrite createImageData_ok by assumption. cbn [data im_width im_height].
  destruct (render_pixels_returns (r_pallete r) (r_pixels r)) with
    (i := 0) (d := replicate (Z.to_nat (4 * width r * height r)) 0) as [d ->].
  - eapply Forall_impl; [exact Hpx|]. intros v Hv. cbn beta in Hv.
    destruct (array_get_is_Some (r_pallete r) v) as [c Hc]; [lia | eauto].
  - eauto.
Qed.

Lemma update_frame (s : Renderer * RNG) :
  width (fst (update s)) = width (fst s) /\
  height (fst (update s)) = height (fst s) /\
  r_pallete (fst (update s)) = r_pallete (fst s).
Proof.
  rewrite update_foldl.
  destruct (spreads_frame (cells_visited (width (fst s)) (height (fst s))) s)
    as (Hw & Hh & _).
  split_and!; [exact Hw | exact Hh |].
  apply (spreads_inv (fun s' => r_pallete (fst s') = r_pallete (fst s))); [|reflexivity].
  intros c s' <-. apply spread_frame.
Qed.

(** [reset()] ends normally on a grid that is not empty, when the palette
    has its 37 entries. *)
Lemma reset_returns (r : Renderer) :
  length (r_pallete r) = 37%nat -> 0 < width r -> 0 < height r ->
  exists img, reset r = (Ok tt, drawImage (with_pixels r (r_pixels (snd (reset r)))) img).
Proof.
  intros Hpal HW HH.
  pose proof (reset_intensities r) as Hpx.
  rewrite reset_pixels in *. unfold reset.
  change (ToUint8 (Some 36)) with 36.
  apply render_returns; assumption.
Qed.

(** The constructor returns a renderer on the grid of [reset()]. *)
Lemma Renderer_new_returns (canvas : HTMLCanvasElement) (scale : Q)
    (pal : ColorPallete) :
  let this := {| r_scale := scale; r_pallete := pal; r_canvas := canvas;
                 r_pixels := [] |} in
  length pal = 37%nat -> 0 < width this -> 0 < height this ->
  exists r, Renderer_new canvas scale pal = Ok r /\
    r_pallete r = pal /\ width r = width this /\ height r = height this /\
    intensities (r_pixels r).
Proof.
  intros this Hpal HW HH. unfold Renderer_new. fold this.
  set (this' := with_pixels this _).
  destruct (reset_returns this') as [img Hreset]; try assumption.
  rewrite Hreset. eexists. split; [reflexivity|].
  split_and!; try reflexivity.
  cbn [drawImage with_pixels r_pixels]. apply reset_intensities.
Qed.

(** A tick that ends normally leaves a timer in [id]. *)
Lemma animate_ok_running (b b' : Burn) :
  animate b = (Ok tt, b') -> Running b'.
Proof.
  destruct b as [t p i r g tm].
  unfold animate, bind, gets, on_renderer, renderer_update, setTimeout, modify.
  cbn [pallete renderer random]. unfold set_pallete.
  destruct (negb _); [discriminate|].
  cbn [with_renderer renderer random].
  destruct (update (with_pallete r p, g)) as [r1 g1].
  cbn [with_renderer renderer random].
  destruct (render r1) as [[[]|e] r2]; cbn; [|discriminate].
  intros [= <-]. unfold Running. cbn. discriminate.
Qed.

(** C7, as amended. [burn()] itself calls [controller.start()] before it
    returns: the controller it returns is running, one tick (update and
    render) has run and the next one is scheduled.  [start()] on a stopped
    controller runs one tick at once, schedules the next one after
    [interval] and leaves the controller running; on a running controller
    it does nothing. *)
Theorem burn_returns_running (canvas : HTMLCanvasElement)
    (options : BurnOptions) (g : RNG) (t : Timers) :
  let scale := default (7 # 2)%Q (o_scale options) in
  let pal := default DEFAULT_PALLETE (o_pallete options) in
  let this := {| r_scale := scale; r_pallete := pal; r_canvas := canvas;
                 r_pixels := [] |} in
  (0 < width this -> 0 < height this -> length pal = 37%nat -> rng_ok g ->
   exists r0 r1 g1 img,
     Renderer_new canvas scale pal = Ok r0 /\
     update (with_pallete r0 pal, g) = (r1, g1) /\
     render r1 = (Ok tt, drawImage r1 img) /\
     burn canvas options g t = Ok (ticked (closure_of options r0 g t) r1 g1 img) /\
     Running (ticked (closure_of options r0 g t) r1 g1 img)) /\
  (forall b r1 g1 img,
     Stopped b -> length (pallete b) = 37%nat ->
     update (with_pallete (renderer b) (pallete b), random b) = (r1, g1) ->
     render r1 = (Ok tt, drawImage r1 img) ->
     controller.start b = (Ok tt, ticked b r1 g1 img) /\
     Running (ticked b r1 g1 img) /\
     In (next_handle (timers b), interval b) (pending (timers (ticked b r1 g1 img)))) /\
  (forall b, Running b -> controller.start b = (Ok tt, b)) /\
  (forall b, burn canvas options g t = Ok b -> Running b).
Proof.
  intros scale pal this. split_and!.
  - intros HW HH Hpal Hg.
    destruct (Renderer_new_returns canvas scale pal Hpal HW HH)
      as (r0 & Hnew & Hp0 & Hw0 & Hh0 & Hpx0).
    fold this in Hw0, Hh0.
    destruct (update (with_pallete r0 pal, g)) as [r1 g1] eqn:Hupdate.
    destruct (update_frame (with_pallete r0 pal, g)) as (Hw1 & Hh1 & Hp1).
    pose proof (update_intensities (with_pallete r0 pal) g Hg Hpx0) as Hpx1.
    rewrite Hupdate in Hw1, Hh1, Hp1, Hpx1. cbn [fst] in Hw1, Hh1, Hp1, Hpx1.
    destruct (render_returns r1) as [img Hrender].
    { now rewrite Hp1. } { exact Hpx1. }
    { rewrite Hw1. change (width (with_pallete r0 pal)) with (width r0). lia. }
    { rewrite Hh1. change (height (with_pallete r0 pal)) with (height r0). lia. }
    exists r0, r1, g1, img. split_and!; try easy.
    unfold burn. fold scale pal. rewrite Hnew.
    change {| interval := default (30 # 1)%Q (o_interval options);
              pallete := pal; id := None; renderer := r0; random := g;
              timers := t |} with (closure_of options r0 g t).
    unfold controller.start. cbn [closure_of id].
    now rewrite (animate_runs (closure_of options r0 g t) r1 g1 img Hpal Hupdate Hrender).
  - intros b r1 g1 img Hstop Hpal Hupdate Hrender. split_and!.
    + unfold controller.start. rewrite Hstop.
      now apply animate_runs.
    + easy.
    + now left.
  - intros b Hrun. unfold controller.start.
    destruct (id b) eqn:Hid; [reflexivity | contradiction].
  - intros b Hburn. unfold burn in Hburn.
    destruct (Renderer_new _ _ _) as [r0|e]; [|discriminate Hburn].
    unfold controller.start in Hburn. cbn [id] in Hburn.
    match type of Hburn with
    | context [animate ?b0] =>
        pose proof (animate_ok_running b0) as Hrun;
        destruct (animate b0) as [[[]|e] b']
    end; [|discriminate Hburn].
    injection Hburn as <-. now apply Hrun.
Qed.

Lemma burn_returns_running_witness :
  exists b, burn canvas4 options4 (steady (3 # 4)) no_timers = Ok b /\ Running b.
Proof.
  destruct (burn_returns_running canvas4 options4 (steady (3 # 4)) no_timers)
    as [Hburn _].
  destruct Hburn as (r0 & r1 & g1 & img & _ & _ & _ & Hb & Hrun).
  - reflexivity.
  - reflexivity.
  - reflexivity.
  - apply steady_ok; [discriminate | reflexivity].
  - eauto.
Defined.

(** [burn(canvas4, { scale: 1 })] returns a running controller: the timer 1
    is pending, [update()] has made its 24 draws and two frames have been
    blitted, one by the constructor and one by the first tick. *)
Lemma returned_stopped_counterexample :
  (exists b,
     burn canvas4 options4 (steady (3 # 4)) no_timers = Ok b /\
     id b = Some 1 /\
     pending (timers b) = [(1, (30 # 1)%Q)] /\
     calls (random b) = 24%nat /\
     length (drawn (r_canvas (renderer b))) = 2%nat /\
     r_pixels (renderer b) =
       [0; 0; 0; 30; 30; 0; 32; 32; 32; 34; 34; 34; 34; 36; 36; 36]) /\
  ~ returned_stopped.
Proof.
  assert (Hb : exists b,
     burn canvas4 options4 (steady (3 # 4)) no_timers = Ok b /\
     id b = Some 1 /\
     pending (timers b) = [(1, (30 # 1)%Q)] /\
     calls (random b) = 24%nat /\
     length (drawn (r_canvas (renderer b))) = 2%nat /\
     r_pixels (renderer b) =
       [0; 0; 0; 30; 30; 0; 32; 32; 32; 34; 34; 34; 34; 36; 36; 36]).
  { destruct (burn canvas4 options4 (steady (3 # 4)) no_timers) as [b|e] eqn:Hburn;
      vm_compute in Hburn; [|discriminate Hburn].
    injection Hburn as <-. eexists. split; [reflexivity|].
    split_and!; reflexivity. }
  split; [exact Hb|].
  intros Hclaim. destruct Hb as (b & Hburn & Hid & _).
  specialize (Hclaim _ _ _ _ _ Hburn). unfold Stopped in Hclaim. congruence.
Qed.

(** ** Palette validation *)

(** C5, as amended. The [Renderer]'s palette setter throws a [TypeError]
    on a palette whose length is not 37 and leaves the renderer as it was.
    The controller's palette setter checks nothing: it stores any palette
    and returns normally, without touching the renderer; the palette is
    rejected by the next tick, which throws at its first step, before
    [update()] and [render()], and changes nothing (when the tick comes
    from a timer, nothing but the expiry of that timer).  [burn()] called
    with such a palette throws before it returns. *)
Theorem pallete_validation (update : ColorPallete) :
  length update <> 37%nat ->
  (forall r,
     set_pallete update r =
       (Throw (TypeError "Color pallette must be 37 elements."), r)) /\
  (forall b,
     controller.set_pallete update b = (Ok tt, with_closure_pallete b update) /\
     renderer (with_closure_pallete b update) = renderer b /\
     animate (with_closure_pallete b update) =
       (Throw (TypeError "Color pallette must be 37 elements."),
        with_closure_pallete b update)) /\
  (forall b h,
     In h (map fst (pending (timers b))) ->
     timeout_fires h (with_closure_pallete b update) =
       (Throw (TypeError "Color pallette must be 37 elements."),
        snd (clearTimeout h (with_closure_pallete b update)))) /\
  (forall canvas options g t,
     o_pallete options = Some update ->
     exists e, burn canvas options g t = Throw e).
Proof.
  intros Hlen. split_and!.
  - intros r. now apply set_pallete_rejects.
  - intros b. split_and!; [reflexivity | reflexivity |].
    now apply animate_rejects.
  - intros b h Hh. unfold timeout_fires.
    replace (existsb _ _) with true.
    + unfold bind. cbn [clearTimeout modify snd]. now rewrite animate_rejects.
    + symmetry. apply existsb_exists.
      apply in_map_iff in Hh as (e & <- & He).
      exists e. split; [exact He | apply Z.eqb_refl].
  - intros canvas options g t Hopt. unfold burn. rewrite Hopt. cbn [default].
    destruct (Renderer_new _ _ _) as [r|e]; [|eauto].
    unfold controller.start. cbn [id].
    rewrite animate_rejects by exact Hlen. eauto.
Qed.

Lemma pallete_validation_witness :
  animate (with_closure_pallete closure4 long_pallete) =
    (Throw (TypeError "Color pallette must be 37 elements."),
     with_closure_pallete closure4 long_pallete).
Proof.
  destruct (pallete_validation long_pallete) as (_ & Hctl & _ & _).
  - discriminate.
  - apply Hctl.
Defined.

(** The controller's setter takes a palette of 36 entries, and one of 38,
    without an error. *)
Lemma controller_setter_counterexample :
  length short_pallete = 36%nat /\
  controller.set_pallete short_pallete closure4 =
    (Ok tt, with_closure_pallete closure4 short_pallete) /\
  length long_pallete = 38%nat /\
  controller.set_pallete long_pallete closure4 =
    (Ok tt, with_closure_pallete closure4 long_pallete) /\
  ~ controller_setter_validates.
Proof.
  split_and!; try reflexivity.
  intros Hclaim.
  destruct (Hclaim short_pallete closure4) as [e He]; [discriminate|].
  discriminate He.
Qed.

(** The constructor does not validate either: with a palette of 38 entries
    it returns a renderer and has blitted a first frame. *)
Lemma Renderer_new_long_pallete :
  exists r, Renderer_new canvas4 1 long_pallete = Ok r /\
    r_pallete r = long_pallete /\ length (drawn (r_canvas r)) = 1%nat.
Proof.
  destruct (Renderer_new canvas4 1 long_pallete) as [r|e] eqn:Hnew;
    vm_compute in Hnew; [|discriminate Hnew].
  injection Hnew as <-. eexists. split; [reflexivity|]. split; reflexivity.
Qed.

(** ** The [height] option *)

(** The grid of a new renderer has the height of its canvas over its
    scale. *)
Lemma Renderer_new_height (canvas : HTMLCanvasElement) (scale : Q)
    (pal : ColorPallete) (r : Renderer) :
  Renderer_new canvas scale pal = Ok r ->
  height r = Qfloor (inject_Z (Z.of_N (canvas_height canvas)) / scale).
Proof.
  unfold Renderer_new. set (this := with_pixels _ _).
  pose proof (reset_width this) as (_ & Hh & _).
  destruct (reset this) as [[[]|e] r']; [|discriminate].
  intros [= <-]. exact Hh.
Qed.

(** A tick keeps the height of the grid, however it ends. *)
Lemma animate_height (b : Burn) :
  height (renderer (snd (animate b))) = height (renderer b).
Proof.
  destruct b as [t p i r g tm].
  unfold animate, bind, gets, on_renderer, renderer_update, setTimeout, modify.
  cbn [pallete renderer random]. unfold set_pallete.
  destruct (negb _); [reflexivity|].
  cbn [with_renderer renderer random].
  pose proof (update_frame (with_pallete r p, g)) as (_ & Hh & _).
  destruct (update (with_pallete r p, g)) as [r1 g1]. cbn [fst] in Hh.
  cbn [with_renderer renderer random].
  pose proof (render_width r1) as [_ Hh1].
  destruct (render r1) as [[[]|e] r2]; cbn in *; congruence.
Qed.

(** C8. [burn] never reads [options.height]: with [{ scale: 1, height: 2 }]
    on the 4x4 surface the grid has the 4 rows of the surface, and any two
    option bags that differ in [height] only give the same controller. *)
Theorem height_option_ignored :
  (exists b,
     burn canvas4
       {| o_scale := Some 1%Q; o_interval := None; o_height := Some 2;
          o_pallete := None |} (steady (3 # 4)) no_timers = Ok b /\
     height (renderer b) = 4 /\
     length (r_pixels (renderer b)) = 16%nat) /\
  (forall canvas scale interval pallete h1 h2 g t,
     burn canvas {| o_scale := scale; o_interval := interval; o_height := h1;
                    o_pallete := pallete |} g t =
     burn canvas {| o_scale := scale; o_interval := interval; o_height := h2;
                    o_pallete := pallete |} g t) /\
  (forall canvas options g t b,
     burn canvas options g t = Ok b ->
     height (renderer b) =
       Qfloor (inject_Z (Z.of_N (canvas_height canvas)) /
               default (7 # 2)%Q (o_scale options))).
Proof.
  split_and!.
  - destruct (burn canvas4 _ (steady (3 # 4)) no_timers) as [b|e] eqn:Hburn;
      vm_compute in Hburn; [|discriminate Hburn].
    injection Hburn as <-. eexists. split; [reflexivity|]. split; reflexivity.
  - reflexivity.
  - intros canvas options g t b Hburn. unfold burn in Hburn.
    destruct (Renderer_new canvas _ _) as [r0|e] eqn:Hnew; [|discriminate Hburn].
    apply Renderer_new_height in Hnew.
    unfold controller.start in Hburn. cbn [id] in Hburn.
    match type of Hburn with
    | context [animate ?b0] =>
        pose proof (animate_height b0) as Hh; destruct (animate b0) as [[[]|e] b']
    end; [|discriminate Hburn].
    injection Hburn as <-. cbn [snd renderer] in Hh. now rewrite Hh, Hnew.
Qed.

(** * Further properties of the renderer *)

(** ** Heat never grows *)

(** [update()] never amplifies: when no cell is hotter than [top] before
    the pass, none is after it.  With [top = 0]: a grid without heat stays
    without heat. *)
Theorem update_never_amplifies (r : Renderer) (g : RNG) (top : Z) :
  rng_ok g -> 0 <= top < 256 ->
  at_most top (r_pixels r) ->
  at_most top (r_pixels (fst (update (r, g)))).
Proof.
  intros Hg Htop Hpx. rewrite update_foldl.
  apply (spreads_inv (fun s => rng_ok (snd s) /\ at_most top (r_pixels (fst s)))).
  - intros c s [Hg' Hpx']. split.
    + now apply spread_rng_ok.
    + now apply spread_range.
  - split; assumption.
Qed.

Lemma update_never_amplifies_witness :
  at_most 36 (r_pixels (fst (update (grid4, steady (3 # 4))))).
Proof.
  apply update_never_amplifies.
  - apply steady_ok; [discriminate | reflexivity].
  - lia.
  - unfold at_most.
    let px := eval vm_compute in (r_pixels grid4) in
    change (r_pixels grid4) with px.
    repeat (constructor; [lia|]). constructor.
Defined.

(** ** The draws of a pass *)

Lemma spreads_calls (cs : list Z) (s : Renderer * RNG) :
  (forall c, c ∈ cs -> width (fst s) <= c) ->
  calls (snd (foldl (fun s c => spread c s) s cs)) =
    (2 * length cs + calls (snd s))%nat.
Proof.
  revert s. induction cs as [|c cs IH]; intros s Hcs; [reflexivity|].
  cbn [foldl length].
  assert (Hc : width (fst s) <= c) by (apply Hcs; now apply elem_of_cons; left).
  destruct (spread_width c s) as [Hw _].
  rewrite IH.
  - destruct s as [r g]. cbn [fst snd] in *.
    rewrite spread_below by exact Hc. cbn [snd advance calls]. lia.
  - intros c' Hc'. rewrite Hw. apply Hcs. now apply elem_of_cons; right.
Qed.

Lemma cells_visited_length (W H : Z) :
  length (cells_visited W H) = (Z.to_nat W * Z.to_nat (H - 1))%nat.
Proof.
  unfold cells_visited. rewrite <- (length_seqZ 0 W).
  induction (seqZ 0 W) as [|x xs IH]; [reflexivity|].
  cbn [flat_map length]. rewrite length_app, IH, length_map, length_seqZ. lia.
Qed.

(** One [update()] calls [Math.random()] twice for every cell of the rows
    [1 .. H-1], that is [2 * W * (H - 1)] times, and touches nothing of the
    renderer but its buffer. *)
Theorem update_draws (r : Renderer) (g : RNG) :
  calls (snd (update (r, g))) =
    (2 * (Z.to_nat (width r) * Z.to_nat (height r - 1)) + calls g)%nat /\
  draws (snd (update (r, g))) = draws g /\
  r_scale (fst (update (r, g))) = r_scale r /\
  r_pallete (fst (update (r, g))) = r_pallete r /\
  r_canvas (fst (update (r, g))) = r_canvas r.
Proof.
  rewrite update_foldl. cbn [fst]. split.
  - rewrite spreads_calls, cells_visited_length; [reflexivity|].
    intros c Hc%cells_visited_bounds. exact (proj1 Hc).
  - apply (spreads_inv (fun s =>
      draws (snd s) = draws g /\ r_scale (fst s) = r_scale r /\
      r_pallete (fst s) = r_pallete r /\ r_canvas (fst s) = r_canvas r)); [|easy].
    intros c s (Hd & Hs & Hp & Hc).
    destruct (spread_frame c s) as (Hs' & Hp' & Hc' & _ & Hd').
    split_and!; congruence.
Qed.

(** ** The left edge *)

(** A source in column 0 of a row [y >= 2] whose direction draw is [-1]
    stores at the last column of the row [y - 2], two rows above it. *)
Theorem first_column_wraps (r : Renderer) (g : RNG) (y : Z) :
  0 < width r -> 2 <= y ->
  direction_of (draws g (S (calls g))) = -1 ->
  let from := y * width r + 0 in
  from - width r + direction_of (draws g (S (calls g))) =
    (y - 2) * width r + (width r - 1) /\
  r_pixels (fst (spread from (r, g))) =
    typed_set (r_pixels r) ((y - 2) * width r + (width r - 1))
      (ToUint8 (decayed (typed_get (r_pixels r) from)
                        (decay_of (draws g (calls g))))).
Proof.
  intros HW Hy Hdir from. subst from. rewrite Hdir. split; [lia|].
  rewrite spread_below by nia. cbn [fst with_pixels r_pixels].
  rewrite Hdir. f_equal. lia.
Qed.

Lemma first_column_wraps_witness :
  r_pixels (fst (spread (3 * 4 + 0) (grid4, steady (1 # 4)))) =
    typed_set (r_pixels grid4) ((3 - 2) * 4 + (4 - 1)) 36.
Proof.
  refine (proj2 (first_column_wraps grid4 (steady (1 # 4)) 3 _ _ _)).
  - reflexivity.
  - lia.
  - reflexivity.
Defined.

(** ** The source row *)

(** Nothing reseeds the bottom row, and nothing needs to: in every renderer
    that [reset()] and then [update()] calls produce, the buffer has one
    cell per grid cell, every cell of the bottom row but the first still
    holds 36, and on a grid at least two cells wide the first one holds 34,
    35 or 36. *)
Theorem source_row_never_depletes (r : Renderer) :
  reachable r ->
  length (r_pixels r) = Z.to_nat (width r * height r) /\
  (forall x, 1 <= x < width r -> 0 < height r ->
     typed_get (r_pixels r) ((height r - 1) * width r + x) = Some 36) /\
  (2 <= width r -> 0 < height r ->
     exists v, typed_get (r_pixels r) ((height r - 1) * width r) = Some v /\
               34 <= v <= 36).
Proof.
  induction 1 as [r Hs|r g Hr (Hlen & Hrow & Hfirst) Hg].
  - destruct (reset_width r) as (Hw & Hh & _). rewrite Hw, Hh, reset_pixels.
    destruct (seeded_cells (width r) (height r)) as [Hlen Hcells].
    split_and!; [exact Hlen | |].
    + intros x Hx HH. rewrite Hcells by nia.
      destruct (Z.leb_spec ((height r - 1) * width r) ((height r - 1) * width r + x)),
        (Z.ltb_spec ((height r - 1) * width r + x) ((height r - 1) * width r + width r));
        cbn; (reflexivity || lia).
    + intros HW HH. exists 36. split; [|lia]. rewrite Hcells by nia.
      destruct (Z.leb_spec ((height r - 1) * width r) ((height r - 1) * width r)),
        (Z.ltb_spec ((height r - 1) * width r) ((height r - 1) * width r + width r));
        cbn; (reflexivity || lia).
  - destruct (update_frame (r, g)) as (Hw & Hh & _). cbn [fst] in Hw, Hh.
    rewrite Hw, Hh, update_length. split_and!; [exact Hlen | |].
    + intros x Hx HH. rewrite update_keeps_bottom by lia. now apply Hrow.
    + intros HW HH. destruct (Hfirst HW HH) as (v0 & Hv0 & Hrange).
      destruct (Z_le_gt_dec (height r) 1) as [Hone|Hmore].
      * exists v0. split; [|exact Hrange].
        rewrite update_foldl. cbn [fst].
        rewrite cells_visited_nil by lia. exact Hv0.
      * destruct (update_bottom_first r g 36 v0) as (decay & Hdecay & Hcell);
          try (assumption || lia).
        { replace (height r * width r - 1)
            with ((height r - 1) * width r + (width r - 1)) by lia.
          apply Hrow; lia. }
        destruct Hcell as [Hcell|Hcell]; eexists; (split; [exact Hcell | lia]).
Qed.

Lemma source_row_never_depletes_witness :
  typed_get
    (r_pixels (fst (update (fst (update (grid4, steady (3 # 4))), steady (1 # 4)))))
    ((4 - 1) * 4 + 2) = Some 36.
Proof.
  refine (proj1 (proj2 (source_row_never_depletes _ _)) 2 _ _).
  - apply reachable_update; [|apply steady_ok; [discriminate | reflexivity]].
    apply reachable_update; [|apply steady_ok; [discriminate | reflexivity]].
    apply reachable_reset. reflexivity.
  - split; [lia | reflexivity].
  - reflexivity.
Defined.

(** ** [reset()] starts over *)

(** The grid after [reset()] depends on the size of the grid only: whatever
    the buffer held is discarded, so a second [reset()], or a [reset()]
    after an [update()], gives the grid of the first one. *)
Theorem reset_starts_over (r : Renderer) (g : RNG) :
  (forall r', width r' = width r -> height r' = height r ->
     r_pixels (snd (reset r')) = r_pixels (snd (reset r))) /\
  r_pixels (snd (reset (snd (reset r)))) = r_pixels (snd (reset r)) /\
  r_pixels (snd (reset (fst (update (snd (reset r), g))))) =
    r_pixels (snd (reset r)).
Proof.
  assert (Hsize : forall r', width r' = width r -> height r' = height r ->
            r_pixels (snd (reset r')) = r_pixels (snd (reset r))).
  { intros r' Hw Hh. now rewrite !reset_pixels, Hw, Hh. }
  destruct (reset_width r) as (Hw & Hh & _).
  destruct (update_frame (snd (reset r), g)) as (Hw' & Hh' & _).
  cbn [fst] in Hw', Hh'.
  split_and!; [exact Hsize | now apply Hsize | apply Hsize; congruence].
Qed.

Lemma reset_starts_over_witness :
  r_pixels (snd (reset (fst (update (grid4, steady (3 # 4)))))) = r_pixels grid4.
Proof.
  exact (proj2 (proj2 (reset_starts_over fresh4 (steady (3 # 4))))).
Defined.

(** ** One frame per [render()] *)

Lemma render_pixels_length (pal : ColorPallete) (px : list Z) :
  forall i d d', render_pixels pal px i d = Ok d' -> length d' = length d.
Proof.
  induction px as [|v px IH]; intros i d d' Hrun.
  - cbn in Hrun. now injection Hrun as <-.
  - destruct (array_get pal v) as [c|] eqn:Hc.
    + rewrite (render_pixels_cons _ _ _ _ _ c Hc) in Hrun.
      apply IH in Hrun. now rewrite Hrun, paint_length.
    + cbn [render_pixels] in Hrun. rewrite Hc in Hrun. discriminate Hrun.
Qed.

(** [render()] either throws and changes nothing, or blits exactly one
    frame of the grid's size with four bytes per cell; it never changes the
    grid or the palette. *)
Theorem render_one_frame (r : Renderer) :
  (forall r', render r = (Ok tt, r') ->
     exists img,
       r' = drawImage r img /\
       im_width img = width r /\ im_height img = height r /\
       length (data img) = Z.to_nat (4 * Z.abs (width r) * Z.abs (height r))) /\
  (forall e r', render r = (Throw e, r') -> r' = r) /\
  r_pixels (snd (render r)) = r_pixels r /\
  r_pallete (snd (render r)) = r_pallete r.
Proof.
  split_and!.
  - unfold render. unfold createImageData.
    destruct ((width r =? 0) || (height r =? 0)); [discriminate|].
    cbn [data im_width im_height].
    destruct (render_pixels _ _ _ _) as [d|e] eqn:Hrun; [|discriminate].
    intros r' [= <-]. eexists. split_and!; try reflexivity.
    cbn [data]. apply render_pixels_length in Hrun.
    now rewrite Hrun, length_replicate.
  - intros e r' Hrun. destruct (render_cases r) as [[e' He]|[img He]];
      rewrite He in Hrun; [now injection Hrun | discriminate Hrun].
  - apply render_frame.
  - apply render_frame.
Qed.

Lemma render_one_frame_witness :
  exists img,
    snd (render grid4) = drawImage grid4 img /\ length (data img) = 64%nat.
Proof.
  destruct (render grid4) as [[[]|e] r'] eqn:Hrun;
    [|vm_compute in Hrun; discriminate Hrun].
  destruct (proj1 (render_one_frame grid4) r' Hrun) as (img & Hr & _ & _ & Hlen).
  exists img. split; [exact Hr | exact Hlen].
Defined.

(** ** The constructor and its palette *)

Lemma render_pixels_throws (pal : ColorPallete) (px : list Z) :
  Exists (fun v => array_get pal v = None) px ->
  forall i d, exists msg, render_pixels pal px i d = Throw (TypeError msg).
Proof.
  induction px as [|v px IH]; intros Hex i d.
  - now apply Exists_nil in Hex.
  - destruct (array_get pal v) as [c|] eqn:Hc.
    + rewrite (render_pixels_cons _ _ _ _ _ c Hc). apply IH.
      apply Exists_cons in Hex as [Hv|Hex]; [congruence | exact Hex].
    + cbn [render_pixels]. rewrite Hc. eauto.
Qed.

Lemma render_returns_ge (r : Renderer) :
  (37 <= length (r_pallete r))%nat -> intensities (r_pixels r) ->
  0 < width r -> 0 < height r ->
  exists img, render r = (Ok tt, drawImage r img).
Proof.
  intros Hpal Hpx HW HH. unfold render.
  rewrite createImageData_ok by assumption. cbn [data im_width im_height].
  destruct (render_pixels_returns (r_pallete r) (r_pixels r)) with
    (i := 0) (d := replicate (Z.to_nat (4 * width r * height r)) 0) as [d ->].
  - eapply Forall_impl; [exact Hpx|]. intros v Hv. cbn beta in Hv.
    destruct (array_get_is_Some (r_pallete r) v) as [c Hc]; [lia | eauto].
  - eauto.
Qed.

(** The constructor stores [options.pallete] without the check of the
    setter.  On a grid that is not empty, a palette of 37 entries or more
    is accepted and the first frame is drawn with it; a palette of 36
    entries or fewer makes the first [render()] throw a [TypeError], for
    want of an entry for the intensity 36 of the bottom row. *)
Theorem constructor_skips_validation (canvas : HTMLCanvasElement) (scale : Q)
    (pal : ColorPallete) :
  let this := {| r_scale := scale; r_pallete := pal; r_canvas := canvas;
                 r_pixels := [] |} in
  0 < width this -> 0 < height this ->
  ((37 <= length pal)%nat ->
     exists r img,
       Renderer_new canvas scale pal = Ok r /\
       r_pallete r = pal /\
       drawn (r_canvas r) = img :: drawn canvas /\
       r_pixels r = r_pixels (snd (reset this))) /\
  ((length pal <= 36)%nat ->
     exists msg, Renderer_new canvas scale pal = Throw (TypeError msg)).
Proof.
  intros this HW HH.
  pose proof (reset_intensities this) as Hpx. rewrite reset_pixels in Hpx.
  rewrite (reset_pixels this).
  unfold Renderer_new. fold this.
  set (this' := with_pixels this _).
  unfold reset. change (width this') with (width this).
  change (height this') with (height this).
  change (ToUint8 (Some 36)) with 36.
  set (seeded := for_range 0 (width this) _ _) in *.
  split.
  - intros Hpal.
    destruct (render_returns_ge (with_pixels this' seeded)) as [img Hrender];
      try assumption.
    rewrite Hrender. eexists _, img. split_and!; reflexivity.
  - intros Hpal.
    assert (Hcell : typed_get seeded ((height this - 1) * width this) = Some 36).
    { destruct (seeded_cells (width this) (height this)) as [_ Hcells].
      fold seeded in Hcells. rewrite Hcells by nia.
      destruct (Z.leb_spec ((height this - 1) * width this) ((height this - 1) * width this)),
        (Z.ltb_spec ((height this - 1) * width this)
           ((height this - 1) * width this + width this));
        cbn; (reflexivity || lia). }
    apply array_get_Some in Hcell as [_ Hcell].
    unfold render. change (width (with_pixels this' seeded)) with (width this).
    change (height (with_pixels this' seeded)) with (height this).
    rewrite createImageData_ok by assumption.
    cbn [data im_width im_height with_pixels r_pallete r_pixels this' this].
    destruct (render_pixels_throws pal seeded) with
      (i := 0) (d := replicate (Z.to_nat (4 * width this * height this)) 0)
      as [msg Hthrow].
    + apply Exists_exists. exists 36. split.
      * apply list_elem_of_lookup. eauto.
      * unfold array_get. cbn. apply lookup_ge_None. lia.
    + fold this. rewrite Hthrow. eauto.
Qed.

Lemma constructor_skips_validation_witness :
  (exists r img,
     Renderer_new canvas4 1 long_pallete = Ok r /\
     r_pallete r = long_pallete /\
     drawn (r_canvas r) = img :: drawn canvas4 /\
     r_pixels r = r_pixels grid4) /\
  (exists msg, Renderer_new canvas4 1 short_pallete = Throw (TypeError msg)).
Proof.
  split.
  - refine (proj1 (constructor_skips_validation canvas4 1 long_pallete _ _) _).
    + reflexivity.
    + reflexivity.
    + cbn. lia.
  - refine (proj2 (constructor_skips_validation canvas4 1 short_pallete _ _) _).
    + reflexivity.
    + reflexivity.
    + cbn. lia.
Defined.

(** * Further properties of the controller *)

(** A tick that ends normally is a tick that ran to its end. *)
Lemma animate_ok_inv (b b' : Burn) :
  animate b = (Ok tt, b') ->
  length (pallete b) = 37%nat /\
  exists r1 g1 img,
    update (with_pallete (renderer b) (pallete b), random b) = (r1, g1) /\
    render r1 = (Ok tt, drawImage r1 img) /\
    b' = ticked b r1 g1 img.
Proof.
  intros Hrun.
  destruct (Nat.eq_dec (length (pallete b)) 37%nat) as [Hlen|Hlen];
    [|rewrite animate_rejects in Hrun by exact Hlen; discriminate Hrun].
  split; [exact Hlen|].
  destruct (update (with_pallete (renderer b) (pallete b), random b))
    as [r1 g1] eqn:Hupdate.
  exists r1, g1.
  destruct (render_cases r1) as [[e Hrender]|[img Hrender]].
  - exfalso. destruct b as [t p i r g tm]. cbn [pallete renderer random] in *.
    revert Hrun.
    unfold animate, bind, gets, on_renderer, renderer_update, setTimeout, modify.
    cbn [pallete renderer random].
    rewrite set_pallete_accepts by exact Hlen.
    cbn [with_renderer renderer random]. rewrite Hupdate.
    cbn [with_renderer renderer random]. rewrite Hrender. discriminate.
  - exists img. split_and!; [reflexivity | exact Hrender |].
    rewrite (animate_runs b r1 g1 img Hlen Hupdate Hrender) in Hrun.
    now injection Hrun.
Qed.

Lemma not_pending_after_clear (h : Z) (b : Burn) :
  ~ In h (map fst (pending (timers (snd (clearTimeout h b))))).
Proof.
  cbn. intros (e & He & Hin)%in_map_iff.
  apply list_elem_of_In, list_elem_of_filter in Hin as [Hne _].
  rewrite He, Z.eqb_refl in Hne. exact Hne.
Qed.

Lemma timeout_fires_cancelled (h : Z) (b : Burn) :
  ~ In h (map fst (pending (timers b))) -> timeout_fires h b = (Ok tt, b).
Proof.
  intros Hout. unfold timeout_fires.
  destruct (existsb _ _) eqn:Hex; [|reflexivity].
  apply existsb_exists in Hex as (e & He & Heq). exfalso. apply Hout.
  apply in_map_iff. exists e. split; [lia | exact He].
Qed.

Lemma timeout_fires_pending (h : Z) (b : Burn) :
  In h (map fst (pending (timers b))) ->
  timeout_fires h b = animate (snd (clearTimeout h b)).
Proof.
  intros (e & He & Hin)%in_map_iff. unfold timeout_fires.
  replace (existsb _ _) with true; [reflexivity|].
  symmetry. apply existsb_exists. exists e. split; [exact Hin | lia].
Qed.

(** ** [stop()] *)

(** [stop()] on a running controller cancels the timer held in [id] and no
    other, leaves the controller stopped and the renderer, the palette and
    the interval as they were; the cancelled timer never runs a tick.  On a
    stopped controller it does nothing. *)
Theorem stop_cancels_timer (b : Burn) :
  (forall h, id b = Some h ->
     let b' := snd (controller.stop b) in
     fst (controller.stop b) = Ok tt /\
     Stopped b' /\
     ~ In h (map fst (pending (timers b'))) /\
     (forall e, In e (pending (timers b)) -> fst e <> h ->
        In e (pending (timers b'))) /\
     renderer b' = renderer b /\ random b' = random b /\
     pallete b' = pallete b /\ interval b' = interval b /\
     timeout_fires h b' = (Ok tt, b')) /\
  (Stopped b -> controller.stop b = (Ok tt, b)).
Proof.
  split.
  - intros h Hid b'. subst b'. unfold controller.stop. rewrite Hid.
    unfold bind, modify, clearTimeout. cbn [fst snd].
    split_and!; try reflexivity.
    + apply (not_pending_after_clear h b).
    + intros e He Hne. cbn. apply list_elem_of_In, list_elem_of_filter.
      split; [|now apply list_elem_of_In].
      destruct (Z.eqb_spec (fst e) h); [contradiction | exact I].
    + apply timeout_fires_cancelled. apply (not_pending_after_clear h b).
  - intros Hstop. unfold controller.stop. now rewrite Hstop.
Qed.

Lemma stop_cancels_timer_witness :
  Stopped (snd (controller.stop running4)) /\
  pending (timers (snd (controller.stop running4))) = [].
Proof.
  split.
  - refine (proj1 (proj2 (proj1 (stop_cancels_timer running4) 1 _))).
    vm_compute. reflexivity.
  - vm_compute. reflexivity.
Defined.

(** ** A tick that throws *)



(** ** Live settings *)

(** A new [interval] leaves the timer already pending as it is and is the
    delay of the timer that the next tick schedules. *)
Theorem interval_applies_to_next_schedule (b b' : Burn) (u : Q) :
  animate (snd (controller.set_interval u b)) = (Ok tt, b') ->
  pending (timers (snd (controller.set_interval u b))) = pending (timers b) /\
  pending (timers b') = (next_handle (timers b), u) :: pending (timers b) /\
  controller.get_interval b' = (Ok u, b').
Proof.
  intros Htick.
  apply animate_ok_inv in Htick as (_ & r1 & g1 & img & _ & _ & ->).
  split_and!; reflexivity.
Qed.

Lemma interval_applies_to_next_schedule_witness :
  exists b',
    animate (snd (controller.set_interval (60 # 1) closure4)) = (Ok tt, b') /\
    pending (timers b') = [(1, (60 # 1)%Q)].
Proof.
  destruct (animate (snd (controller.set_interval (60 # 1) closure4)))
    as [[[]|e] b'] eqn:Htick; [|vm_compute in Htick; discriminate Htick].
  exists b'. split; [reflexivity|].
  exact (proj1 (proj2 (interval_applies_to_next_schedule closure4 b' _ Htick))).
Defined.

(** A new palette is taken by the renderer at the next tick, not before;
    when that tick ends normally the palette had 37 entries and is the
    renderer's. *)
Theorem pallete_swaps_on_next_tick (b b' : Burn) (p : ColorPallete) :
  r_pallete (renderer (snd (controller.set_pallete p b))) = r_pallete (renderer b) /\
  controller.get_pallete (snd (controller.set_pallete p b)) =
    (Ok p, snd (controller.set_pallete p b)) /\
  (animate (snd (controller.set_pallete p b)) = (Ok tt, b') ->
   length p = 37%nat /\ r_pallete (renderer b') = p /\ pallete b' = p).
Proof.
  split_and!; [reflexivity | reflexivity |].
  intros Htick.
  apply animate_ok_inv in Htick as (Hlen & r1 & g1 & img & Hupdate & _ & ->).
  cbn in Hlen, Hupdate. split_and!; [exact Hlen | | reflexivity].
  destruct (update_frame (with_pallete (renderer b) p, random b)) as (_ & _ & Hp).
  rewrite Hupdate in Hp. exact Hp.
Qed.

Lemma pallete_swaps_on_next_tick_witness :
  exists b',
    animate (snd (controller.set_pallete (reverse DEFAULT_PALLETE) closure4))
      = (Ok tt, b') /\
    r_pallete (renderer b') = reverse DEFAULT_PALLETE.
Proof.
  destruct (animate (snd (controller.set_pallete (reverse DEFAULT_PALLETE) closure4)))
    as [[[]|e] b'] eqn:Htick; [|vm_compute in Htick; discriminate Htick].
  exists b'. split; [reflexivity|].
  exact (proj1 (proj2 (proj2 (proj2
    (pallete_swaps_on_next_tick closure4 b' _)) Htick))).
Defined.

(** ** The loop of ticks *)

(** When the pending timer expires and its tick ends normally, the tick
    has scheduled one new timer, with a handle of its own and the current
    [interval], and [id] holds that handle: the controller stays running. *)
Theorem timer_tick_reschedules (b b' : Burn) (h : Z) :
  fresh_handles (timers b) ->
  In h (map fst (pending (timers b))) ->
  timeout_fires h b = (Ok tt, b') ->
  id b' = Some (next_handle (timers b)) /\
  Running b' /\
  In (next_handle (timers b), interval b) (pending (timers b')) /\
  ~ In h (map fst (pending (timers b'))) /\
  next_handle (timers b') = next_handle (timers b) + 1 /\
  fresh_handles (timers b').
Proof.
  intros Hfresh Hpending Htick.
  rewrite (timeout_fires_pending h b Hpending) in Htick.
  apply animate_ok_inv in Htick as (_ & r1 & g1 & img & _ & _ & ->).
  assert (Hlt : h < next_handle (timers b)).
  { apply in_map_iff in Hpending as (e & <- & He).
    exact (proj1 (Forall_forall _ _) Hfresh e (proj2 (list_elem_of_In _ _) He)). }
  cbn. split_and!.
  - reflexivity.
  - discriminate.
  - now left.
  - intros [Heq|Hin]; [lia|].
    now apply (not_pending_after_clear h b).
  - reflexivity.
  - unfold fresh_handles. cbn. apply Forall_cons. split; [cbn; lia|].
    apply Forall_forall. intros e [_ He]%list_elem_of_filter.
    pose proof (proj1 (Forall_forall _ _) Hfresh e He). cbn in *. lia.
Qed.

Lemma timer_tick_reschedules_witness :
  exists b',
    timeout_fires 1 running4 = (Ok tt, b') /\ id b' = Some 2.
Proof.
  destruct (timeout_fires 1 running4) as [[[]|e] b'] eqn:Htick;
    [|vm_compute in Htick; discriminate Htick].
  exists b'. split; [reflexivity|].
  refine (proj1 (timer_tick_reschedules running4 b' 1 _ _ Htick)).
  - unfold fresh_handles.
    let t := eval vm_compute in (timers running4) in
    change (timers running4) with t.
    cbn. repeat constructor.
  - vm_compute. left. reflexivity.
Defined.

(** ** [reset()] on the controller *)

(** [controller.reset()] reseeds the grid, bottom row at 36 over rows of
    0, and touches neither [id] nor the timers nor the settings: a running
    controller stays running, a stopped one stays stopped. *)
Theorem controller_reset_keeps_schedule (b : Burn) :
  let b' := snd (controller.reset b) in
  let W := width (renderer b) in
  let H := height (renderer b) in
  id b' = id b /\ timers b' = timers b /\
  interval b' = interval b /\ pallete b' = pallete b /\ random b' = random b /\
  width (renderer b') = W /\ height (renderer b') = H /\
  forall x y, 0 <= x < W -> 0 <= y < H ->
    typed_get (r_pixels (renderer b')) (y * W + x) =
      Some (if y =? H - 1 then 36 else 0).
Proof.
  intros b' W H. subst b'. unfold controller.reset, on_renderer.
  destruct (reset_width (renderer b)) as (Hw & Hh & _).
  pose proof (reset_pixels (renderer b)) as Hpx.
  destruct (reset (renderer b)) as [res r'].
  cbn [snd with_renderer id timers interval pallete random renderer] in *.
  split_and!; try reflexivity; try assumption.
  intros x y Hx Hy. rewrite Hpx. fold W H.
  destruct (seeded_cells W H) as [_ Hcells]. rewrite Hcells by nia. f_equal.
  destruct (Z.eqb_spec y (H - 1)) as [->|Hne].
  - destruct (Z.leb_spec ((H - 1) * W) ((H - 1) * W + x)),
      (Z.ltb_spec ((H - 1) * W + x) ((H - 1) * W + W)); cbn; (reflexivity || lia).
  - destruct (Z.leb_spec ((H - 1) * W) (y * W + x)),
      (Z.ltb_spec (y * W + x) ((H - 1) * W + W)); cbn; (reflexivity || nia).
Qed.

Lemma controller_reset_keeps_schedule_witness :
  id (snd (controller.reset running4)) = id running4 /\
  typed_get (r_pixels (renderer (snd (controller.reset running4))))
    (3 * width (renderer running4) + 0) =
  Some (if 3 =? height (renderer running4) - 1 then 36 else 0).
Proof.
  destruct (controller_reset_keeps_schedule running4)
    as (Hid & _ & _ & _ & _ & _ & _ & Hcells).
  split; [exact Hid|].
  apply (Hcells 0 3); vm_compute; split; congruence.
Defined.

(** ** [burn()] with its defaults *)

(** The grid size at the default scale of 3.5. *)
Lemma Qfloor_default_scale (n : Z) :
  Qfloor (inject_Z n / (7 # 2)) = (2 * n) / 7.
Proof.
  unfold Qdiv, Qinv, Qmult, Qfloor, inject_Z. cbn.
  f_equal. lia.
Qed.

(** [burn] returns on a grid that is not empty, with a palette of 37
    entries: the renderer is constructed and one tick runs. *)
Lemma burn_returns (canvas : HTMLCanvasElement) (options : BurnOptions)
    (g : RNG) (t : Timers) :
  let scale := default (7 # 2)%Q (o_scale options) in
  let pal := default DEFAULT_PALLETE (o_pallete options) in
  let this := {| r_scale := scale; r_pallete := pal; r_canvas := canvas;
                 r_pixels := [] |} in
  0 < width this -> 0 < height this -> length pal = 37%nat -> rng_ok g ->
  exists r0 r1 g1 img,
    burn canvas options g t = Ok (ticked (closure_of options r0 g t) r1 g1 img) /\
    width r1 = width this /\ height r1 = height this /\ r_pallete r1 = pal.
Proof.
  intros scale pal this HW HH Hpal Hg.
  destruct (Renderer_new_returns canvas scale pal Hpal HW HH)
    as (r0 & Hnew & Hp0 & Hw0 & Hh0 & Hpx0).
  fold this in Hw0, Hh0.
  destruct (update (with_pallete r0 pal, g)) as [r1 g1] eqn:Hupdate.
  destruct (update_frame (with_pallete r0 pal, g)) as (Hw1 & Hh1 & Hp1).
  pose proof (update_intensities (with_pallete r0 pal) g Hg Hpx0) as Hpx1.
  rewrite Hupdate in Hw1, Hh1, Hp1, Hpx1. cbn [fst] in Hw1, Hh1, Hp1, Hpx1.
  change (width (with_pallete r0 pal)) with (width r0) in Hw1.
  change (height (with_pallete r0 pal)) with (height r0) in Hh1.
  destruct (render_returns r1) as [img Hrender].
  { now rewrite Hp1. } { exact Hpx1. } { lia. } { lia. }
  exists r0, r1, g1, img.
  split_and!; [| congruence | congruence | exact Hp1].
  unfold burn. fold scale pal. rewrite Hnew.
  change {| interval := default (30 # 1)%Q (o_interval options);
            pallete := pal; id := None; renderer := r0; random := g;
            timers := t |} with (closure_of options r0 g t).
  unfold controller.start. cbn [closure_of id].
  now rewrite (animate_runs (closure_of options r0 g t) r1 g1 img Hpal Hupdate Hrender).
Qed.

(** [burn(canvas)] without options, on a canvas of at least 4x4 pixels,
    returns a running controller with the interval 30 and the built-in
    palette, on a grid of [floor(2 * width / 7)] by [floor(2 * height / 7)]
    cells (the scale 3.5). *)
Theorem burn_with_defaults (canvas : HTMLCanvasElement) (g : RNG) (t : Timers) :
  4 <= Z.of_N (canvas_width canvas) -> 4 <= Z.of_N (canvas_height canvas) ->
  rng_ok g ->
  exists b,
    burn canvas no_options g t = Ok b /\
    Running b /\
    interval b = (30 # 1)%Q /\
    pallete b = DEFAULT_PALLETE /\
    r_pallete (renderer b) = DEFAULT_PALLETE /\
    width (renderer b) = (2 * Z.of_N (canvas_width canvas)) / 7 /\
    height (renderer b) = (2 * Z.of_N (canvas_height canvas)) / 7.
Proof.
  intros Hcw Hch Hg.
  destruct (burn_returns canvas no_options g t)
    as (r0 & r1 & g1 & img & Hburn & Hw & Hh & Hp); try assumption.
  - unfold width, no_options. cbn [r_canvas r_scale o_scale default].
    rewrite Qfloor_default_scale.
    apply Z.lt_le_trans with 1; [lia|]. apply Z.div_le_lower_bound; lia.
  - unfold height, no_options. cbn [r_canvas r_scale o_scale default].
    rewrite Qfloor_default_scale.
    apply Z.lt_le_trans with 1; [lia|]. apply Z.div_le_lower_bound; lia.
  - reflexivity.
  - eexists. split; [exact Hburn|].
    split_and!; try reflexivity.
    + discriminate.
    + exact Hp.
    + change (width r1 = 2 * Z.of_N (canvas_width canvas) / 7).
      rewrite Hw. unfold width, no_options.
      cbn [r_canvas r_scale o_scale default]. apply Qfloor_default_scale.
    + change (height r1 = 2 * Z.of_N (canvas_height canvas) / 7).
      rewrite Hh. unfold height, no_options.
      cbn [r_canvas r_scale o_scale default]. apply Qfloor_default_scale.
Qed.

Lemma burn_with_defaults_witness :
  exists b,
    burn {| canvas_width := 300; canvas_height := 150; drawn := [] |}
      no_options (steady (3 # 4)) no_timers = Ok b /\
    width (renderer b) = 85 /\ height (renderer b) = 42.
Proof.
  destruct (burn_with_defaults
              {| canvas_width := 300; canvas_height := 150; drawn := [] |}
              (steady (3 # 4)) no_timers)
    as (b & Hburn & _ & _ & _ & _ & Hw & Hh).
  - cbn. lia.
  - cbn. lia.
  - apply steady_ok; [discriminate | reflexivity].
  - exists b. split; [exact Hburn|]. split; [exact Hw | exact Hh].
Defined.
